(** * ConstantExpression.cpp: the constant-expression evaluator of hidl-gen

    A shallow embedding of [src/ConstantExpression.cpp]: the kind model
    ([integralPromotion], [usualArithmeticConversion]), the literal parser,
    the four node constructors and the value renderers, followed by the
    properties of the specification that were checked against them. *)

From Stdlib Require Import ZArith Lia List Bool Ascii String Decimal DecimalString.
From Stdlib Require Import Znumtheory Permutation.
From Stdlib Require DecimalPos DecimalZ.
Import ListNotations.

Local Open Scope string_scope.
Local Open Scope Z_scope.

(* ===================================================================== *)
(** ** Outcomes of a call *)
(* ===================================================================== *)

(** A call either returns, or the process is aborted by [LOG(FATAL)] or a
    failed [CHECK] (android-base logging), or it runs a native operation
    whose result the language leaves undefined (division by zero, a shift
    count outside the operand's width). *)
Inductive outcome (A : Type) : Type :=
| Done (a : A)
| Abort
| Undefined.

Arguments Done {A} a.
Arguments Abort {A}.
Arguments Undefined {A}.

Definition bind {A B : Type} (m : outcome A) (k : A -> outcome B) : outcome B :=
  match m with
  | Done a => k a
  | Abort => Abort
  | Undefined => Undefined
  end.

Notation "x <- m ;; k" := (bind m (fun x => k))
  (at level 61, m at next level, right associativity).

Definition omap {A B : Type} (f : A -> B) (m : outcome A) : outcome B :=
  x <- m ;; Done (f x).

(* ===================================================================== *)
(** ** Kinds and native types *)
(* ===================================================================== *)

(** [ScalarType::Kind].  The enumeration is declared in ScalarType.h; its
    enumerators and their order are those of the [kName] table of
    [ConstantExpression::description], which is indexed by the kind. *)
Inductive Kind : Type :=
| KIND_BOOL | KIND_OPAQUE
| KIND_INT8 | KIND_UINT8
| KIND_INT16 | KIND_UINT16
| KIND_INT32 | KIND_UINT32
| KIND_INT64 | KIND_UINT64
| KIND_FLOAT | KIND_DOUBLE.

(** The enumerator's integer value: the rank that [<], [<=] compare. *)
Definition kindValue (k : Kind) : Z :=
  match k with
  | KIND_BOOL => 0 | KIND_OPAQUE => 1
  | KIND_INT8 => 2 | KIND_UINT8 => 3
  | KIND_INT16 => 4 | KIND_UINT16 => 5
  | KIND_INT32 => 6 | KIND_UINT32 => 7
  | KIND_INT64 => 8 | KIND_UINT64 => 9
  | KIND_FLOAT => 10 | KIND_DOUBLE => 11
  end.

Definition Kind_eqb (a b : Kind) : bool := kindValue a =? kindValue b.
Definition Kind_ltb (a b : Kind) : bool := kindValue a <? kindValue b.
Definition Kind_leb (a b : Kind) : bool := kindValue a <=? kindValue b.

(** The native types that [SWITCH_KIND] dispatches to. *)
Inductive CType : Type :=
| Tbool
| Tuint8 | Tint8
| Tuint16 | Tint16
| Tuint32 | Tint32
| Tuint64 | Tint64.

(** [SWITCH_KIND(cond, action, def)]: [Some T] runs [action(T)], [None] is
    the [default] branch. *)
Definition SWITCH_KIND (k : Kind) : option CType :=
  match k with
  | KIND_BOOL => Some Tbool
  | KIND_UINT8 => Some Tuint8
  | KIND_INT8 => Some Tint8
  | KIND_UINT16 => Some Tuint16
  | KIND_INT16 => Some Tint16
  | KIND_UINT32 => Some Tuint32
  | KIND_INT32 => Some Tint32
  | KIND_UINT64 => Some Tuint64
  | KIND_INT64 => Some Tint64
  | _ => None
  end.

Definition wrapUnsigned (bits z : Z) : Z := z mod 2 ^ bits.

Definition wrapSigned (bits z : Z) : Z :=
  (z + 2 ^ (bits - 1)) mod 2 ^ bits - 2 ^ (bits - 1).

(** [static_cast<T>(z)] of an integer value [z]: a boolean is 1 unless [z]
    is 0, an integer type keeps [z] modulo its width. *)
Definition castTo (T : CType) (z : Z) : Z :=
  match T with
  | Tbool => if z =? 0 then 0 else 1
  | Tuint8 => wrapUnsigned 8 z
  | Tint8 => wrapSigned 8 z
  | Tuint16 => wrapUnsigned 16 z
  | Tint16 => wrapSigned 16 z
  | Tuint32 => wrapUnsigned 32 z
  | Tint32 => wrapSigned 32 z
  | Tuint64 => wrapUnsigned 64 z
  | Tint64 => wrapSigned 64 z
  end.

(** The type an operand of type [T] has inside a native expression: types
    narrower than [int] are computed as [int]. *)
Definition promoteT (T : CType) : CType :=
  match T with
  | Tuint32 => Tuint32
  | Tuint64 => Tuint64
  | Tint64 => Tint64
  | _ => Tint32
  end.

(** Bit width of the promoted operand type, the bound of a defined shift. *)
Definition promotedWidth (T : CType) : Z :=
  match T with
  | Tuint64 | Tint64 => 64
  | _ => 32
  end.

(** The value a native operator whose exact result is [z] returns from a
    template instantiated at [T]: computed at the promoted type (signed
    overflow wraps), then converted to the return type [T]. *)
Definition retT (T : CType) (z : Z) : Z := castTo T (castTo (promoteT T) z).

Definition b2z (b : bool) : Z := if b then 1 else 0.

Definition UINT32_MAX : Z := 4294967295.
Definition INT32_MAX : Z := 2147483647.
Definition INT64_MAX : Z := 9223372036854775807.
Definition UINT64_MAX : Z := 18446744073709551615.
Definition INT64_MIN : Z := -9223372036854775808.

(* ===================================================================== *)
(** ** Kind model *)
(* ===================================================================== *)

Definition integralPromotion (k : Kind) : Kind :=
  if Kind_ltb KIND_INT32 k then k else KIND_INT32.

Definition isSignedKind (k : Kind) : bool :=
  Kind_eqb k KIND_INT8 || Kind_eqb k KIND_INT16
  || Kind_eqb k KIND_INT32 || Kind_eqb k KIND_INT64.

Definition usualArithmeticConversion (lft rgt : Kind) : outcome Kind :=
  if negb (Kind_leb KIND_BOOL lft && Kind_leb lft KIND_UINT64
           && Kind_leb KIND_BOOL rgt && Kind_leb rgt KIND_UINT64
           && negb (Kind_eqb lft KIND_OPAQUE) && negb (Kind_eqb rgt KIND_OPAQUE))
  then Abort
  else if Kind_eqb lft rgt then Done lft
  else if Kind_eqb lft KIND_BOOL then Done rgt
  else if Kind_eqb rgt KIND_BOOL then Done lft
  else
    let isLftSigned := isSignedKind lft in
    let isRgtSigned := isSignedKind rgt in
    if Bool.eqb isLftSigned isRgtSigned
    then Done (if Kind_ltb lft rgt then rgt else lft)
    else
      let unsignedRank := if isLftSigned then rgt else lft in
      let signedRank := if isLftSigned then lft else rgt in
      if Kind_leb signedRank unsignedRank then Done unsignedRank
      else if Kind_ltb unsignedRank signedRank then Done signedRank
      else Abort.

(* ===================================================================== *)
(** ** Operator handlers *)
(* ===================================================================== *)

(** [STREQ]/[OPEQ]: comparison of the operator token with a fixed string. *)
Definition OPEQ (op y : string) : bool := String.eqb op y.

Definition OP_IS_BIN_ARITHMETIC (op : string) : bool :=
  OPEQ op "+" || OPEQ op "-" || OPEQ op "*" || OPEQ op "/" || OPEQ op "%".
Definition OP_IS_BIN_BITFLIP (op : string) : bool :=
  OPEQ op "|" || OPEQ op "^" || OPEQ op "&".
Definition OP_IS_BIN_COMP (op : string) : bool :=
  OPEQ op "<" || OPEQ op ">" || OPEQ op "<=" || OPEQ op ">=" || OPEQ op "==" || OPEQ op "!=".
Definition OP_IS_BIN_SHIFT (op : string) : bool :=
  OPEQ op ">>" || OPEQ op "<<".
Definition OP_IS_BIN_LOGICAL (op : string) : bool :=
  OPEQ op "||" || OPEQ op "&&".

(** [template <class T> T handleUnary(const char *op, T val)]; [val] is a
    value of type [T]. *)
Definition handleUnary (T : CType) (op : string) (val : Z) : outcome Z :=
  if OPEQ op "+" then Done (retT T val)
  else if OPEQ op "-" then Done (retT T (- val))
  else if OPEQ op "!" then Done (retT T (b2z (val =? 0)))
  else if OPEQ op "~" then Done (retT T (Z.lnot val))
  else Abort.

(** Native [/] and [%]: no result for a zero divisor or a quotient that the
    promoted type cannot hold. *)
Definition nativeDivRem (T : CType) (f : Z -> Z -> Z) (lval rval : Z) : outcome Z :=
  if rval =? 0 then Undefined
  else if castTo (promoteT T) (Z.quot lval rval) =? Z.quot lval rval
       then Done (retT T (f lval rval))
       else Undefined.

Definition handleBinaryCommon (T : CType) (lval : Z) (op : string) (rval : Z) : outcome Z :=
  if OPEQ op "+" then Done (retT T (lval + rval))
  else if OPEQ op "-" then Done (retT T (lval - rval))
  else if OPEQ op "*" then Done (retT T (lval * rval))
  else if OPEQ op "/" then nativeDivRem T Z.quot lval rval
  else if OPEQ op "%" then nativeDivRem T Z.rem lval rval
  else if OPEQ op "|" then Done (retT T (Z.lor lval rval))
  else if OPEQ op "^" then Done (retT T (Z.lxor lval rval))
  else if OPEQ op "&" then Done (retT T (Z.land lval rval))
  else if OPEQ op "==" then Done (retT T (b2z (lval =? rval)))
  else if OPEQ op "!=" then Done (retT T (b2z (negb (lval =? rval))))
  else if OPEQ op "<" then Done (retT T (b2z (lval <? rval)))
  else if OPEQ op ">" then Done (retT T (b2z (rval <? lval)))
  else if OPEQ op "<=" then Done (retT T (b2z (lval <=? rval)))
  else if OPEQ op ">=" then Done (retT T (b2z (rval <=? lval)))
  else Abort.

(** Native shift of a [T] by an [int64_t] count: defined for counts from 0
    below the width of the promoted left operand; [>>] is arithmetic. *)
Definition nativeShift (T : CType) (f : Z -> Z -> Z) (lval rval : Z) : outcome Z :=
  if (0 <=? rval) && (rval <? promotedWidth T)
  then Done (retT T (f lval rval))
  else Undefined.

Definition handleShift (T : CType) (lval : Z) (op : string) (rval : Z) : outcome Z :=
  if OPEQ op ">>" then nativeShift T Z.shiftr lval rval
  else if OPEQ op "<<" then nativeShift T Z.shiftl lval rval
  else Abort.

Definition handleLogical (lval : bool) (op : string) (rval : bool) : outcome bool :=
  if OPEQ op "||" then Done (lval || rval)
  else if OPEQ op "&&" then Done (lval && rval)
  else Abort.

(* ===================================================================== *)
(** ** Expression nodes *)
(* ===================================================================== *)

Inductive ConstExprType : Type :=
| kConstExprLiteral
| kConstExprUnknown
| kConstExprUnary
| kConstExprBinary
| kConstExprTernary.

Definition isUnknown (t : ConstExprType) : bool :=
  match t with
  | kConstExprUnknown => true
  | _ => false
  end.

(** The members of a node; [mValue] is a [uint64_t]. *)
Record ConstantExpression : Type := mkConstantExpression {
  mFormatted : string;
  mType : ConstExprType;
  mValueKind : Kind;
  mValue : Z
}.

Definition set_mType (this : ConstantExpression) (t : ConstExprType) :=
  mkConstantExpression (mFormatted this) t (mValueKind this) (mValue this).
Definition set_mValueKind (this : ConstantExpression) (k : Kind) :=
  mkConstantExpression (mFormatted this) (mType this) k (mValue this).
Definition set_mValue (this : ConstantExpression) (v : Z) :=
  mkConstantExpression (mFormatted this) (mType this) (mValueKind this) v.

(** What the members that a constructor's initialiser list leaves out hold
    before the body assigns them.  The constructors below return early on
    several paths without assigning [mValueKind] or [mValue]; those members
    then keep this content. *)
Record Indeterminate : Type := mkIndeterminate {
  anyKind : Kind;
  anyValue : Z
}.

(** The object after the initialiser list [mFormatted(..), mType(..)]. *)
Definition construct (mem : Indeterminate) (formatted : string) (type : ConstExprType)
  : ConstantExpression :=
  mkConstantExpression formatted type (anyKind mem) (castTo Tuint64 (anyValue mem)).

Definition expr (this : ConstantExpression) : string := mFormatted this.

(** [template<typename T> T ConstantExpression::cast() const]. *)
Definition cast (T : CType) (this : ConstantExpression) : outcome Z :=
  if isUnknown (mType this) then Abort
  else match SWITCH_KIND (mValueKind this) with
       | Some K => Done (castTo T (castTo K (mValue this)))
       | None => Abort
       end.

(* ===================================================================== *)
(** ** Literal parser *)
(* ===================================================================== *)

Definition isU (c : ascii) : bool := Ascii.eqb c "u" || Ascii.eqb c "U".
Definition isL (c : ascii) : bool := Ascii.eqb c "l" || Ascii.eqb c "L".

(** The suffix loop.  [tail] holds the characters from [*tail] down to
    [*head] (the text read backwards); the result is what is left of it once
    [tail] has stopped, with the two flags. *)
Fixpoint stripSuffix (tail : list ascii) (isLong isUnsigned : bool)
  : list ascii * bool * bool :=
  match tail with
  | c :: tail' =>
      if isU c || isL c
      then stripSuffix tail' (isLong || isL c) (isUnsigned || isU c)
      else (tail, isLong, isUnsigned)
  | [] => ([], isLong, isUnsigned)
  end.

(** [value[0] == '0' && (value[1] == 'x' || value[1] == 'X')]. *)
Definition isHexPrefix (s : list ascii) : bool :=
  match s with
  | c0 :: c1 :: _ => Ascii.eqb c0 "0" && (Ascii.eqb c1 "x" || Ascii.eqb c1 "X")
  | _ => false
  end.

(** The value of a character as a digit, as [strtoull] reads it: decimal
    digits by their distance from ['0'], letters in either case by their
    distance from ['a'] or ['A'] plus ten. *)
Definition digitOf (c : ascii) : option Z :=
  let n := Z.of_N (N_of_ascii c) in
  if (48 <=? n) && (n <=? 57) then Some (n - 48)
  else if (97 <=? n) && (n <=? 102) then Some (n - 97 + 10)
  else if (65 <=? n) && (n <=? 70) then Some (n - 65 + 10)
  else None.

(** Accumulates the digits of [s] in [base], most significant first; [None]
    at a character that is not a digit of the base. *)
Fixpoint parseDigits (base acc : Z) (s : list ascii) : option Z :=
  match s with
  | [] => Some acc
  | c :: s' =>
      match digitOf c with
      | Some d => if d <? base then parseDigits base (acc * base + d) s' else None
      | None => None
      end
  end.

(** Modelled from the spec: [android::base::ParseUint] (android-base
    parseint.h) is not under src/.  Following section 4.2, the text is read
    as a non-negative integer that fits 64 bits: a non-empty run of decimal
    digits, or of hexadecimal digits after a [0x]/[0X] prefix, and nothing
    else; [None] is the [false] return, which leaves [*out] untouched. *)
Definition ParseUint (s : string) : option Z :=
  let cs := list_ascii_of_string s in
  let hex := isHexPrefix cs in
  let digits := if hex then skipn 2 cs else cs in
  match digits with
  | [] => None
  | _ =>
      match parseDigits (if hex then 16 else 10) 0 digits with
      | Some v => if v <=? UINT64_MAX then Some v else None
      | None => None
      end
  end.

(** [std::to_string] of an integer: its decimal digits, [-] first when
    negative. *)
Definition to_string (z : Z) : string := NilEmpty.string_of_int (Z.to_int z).

(* ===================================================================== *)
(** ** Constructors *)
(* ===================================================================== *)

(** [ConstantExpression(const char *value, ConstExprType type)]. *)
Definition ConstantExpression_literal (mem : Indeterminate)
    (value : string) (type : ConstExprType) : outcome ConstantExpression :=
  let this := construct mem value type in
  if isUnknown (mType this) then Done this
  else
    let chars := list_ascii_of_string value in
    let isHex := isHexPrefix chars in
    let '(tail, isLong, isUnsigned) := stripSuffix (List.rev chars) false false in
    let newVal := string_of_list_ascii (List.rev tail) in
    match ParseUint newVal with
    | None => Abort (* LOG(FATAL) << "Could not parse as integer: " *)
    | Some v =>
        let this := set_mValue this v in
        Done
          (if isLong then
             if isUnsigned then set_mValueKind this KIND_UINT64
             else set_mValueKind this KIND_INT64
           else if isUnsigned then
             if mValue this <=? UINT32_MAX then set_mValueKind this KIND_UINT32
             else set_mValueKind this KIND_UINT64
           else if isHex then
             if mValue this <=? INT32_MAX then set_mValueKind this KIND_INT32
             else if mValue this <=? UINT32_MAX then set_mValueKind this KIND_UINT32
             else if mValue this <=? INT64_MAX then set_mValueKind this KIND_INT64
             else if mValue this <=? UINT64_MAX then set_mValueKind this KIND_UINT64
             else this
           else
             if mValue this <=? INT32_MAX then set_mValueKind this KIND_INT32
             else set_mValueKind this KIND_INT64)
    end.

(** [ConstantExpression(const char *op, const ConstantExpression *value)]. *)
Definition ConstantExpression_unary (mem : Indeterminate)
    (op : string) (value : ConstantExpression) : outcome ConstantExpression :=
  let this :=
    set_mValueKind
      (construct mem ("(" ++ op ++ expr value ++ ")")%string kConstExprUnary)
      (mValueKind value) in
  if isUnknown (mType value) then Done (set_mType this kConstExprUnknown)
  else
    match SWITCH_KIND (mValueKind this) with
    | Some T =>
        v <- handleUnary T op (castTo T (mValue value)) ;;
        Done (set_mValue this (castTo Tuint64 v))
    | None => Done (set_mType this kConstExprUnknown)
    end.

(** [ConstantExpression(const ConstantExpression *lval, const char *op,
    const ConstantExpression *rval)]. *)
Definition ConstantExpression_binary (mem : Indeterminate)
    (lval : ConstantExpression) (op : string) (rval : ConstantExpression)
  : outcome ConstantExpression :=
  let this :=
    construct mem ("(" ++ expr lval ++ " " ++ op ++ " " ++ expr rval ++ ")")%string
      kConstExprBinary in
  if isUnknown (mType lval) || isUnknown (mType rval)
  then Done (set_mType this kConstExprUnknown)
  else
    let isArithmeticOrBitflip := OP_IS_BIN_ARITHMETIC op || OP_IS_BIN_BITFLIP op in
    (* CASE 1: + - * / % | ^ & < > <= >= == != *)
    if isArithmeticOrBitflip || OP_IS_BIN_COMP op then
      promoted <- usualArithmeticConversion
                    (integralPromotion (mValueKind lval))
                    (integralPromotion (mValueKind rval)) ;;
      let this :=
        set_mValueKind this (if isArithmeticOrBitflip then promoted else KIND_BOOL) in
      match SWITCH_KIND promoted with
      | Some T =>
          v <- handleBinaryCommon T (castTo T (mValue lval)) op (castTo T (mValue rval)) ;;
          Done (set_mValue this (castTo Tuint64 v))
      | None => Done (set_mType this kConstExprUnknown)
      end
    (* CASE 2: << >> *)
    else if OP_IS_BIN_SHIFT op then
      let this := set_mValueKind this (integralPromotion (mValueKind lval)) in
      numBits <- cast Tint64 rval ;;
      flipped <- (if numBits <? 0 then
                    (* -numBits has no int64_t result for INT64_MIN *)
                    if numBits =? INT64_MIN then Undefined
                    else Done (if OPEQ op "<<" then ">>" else "<<", - numBits)
                  else Done (op, numBits)) ;;
      let '(op, numBits) := flipped in
      match SWITCH_KIND (mValueKind this) with
      | Some T =>
          v <- handleShift T (castTo T (mValue lval)) op numBits ;;
          Done (set_mValue this (castTo Tuint64 v))
      | None => Done (set_mType this kConstExprUnknown)
      end
    (* CASE 3: && || *)
    else if OP_IS_BIN_LOGICAL op then
      let this := set_mValueKind this KIND_BOOL in
      b <- handleLogical (negb (mValue lval =? 0)) op (negb (mValue rval =? 0)) ;;
      Done (set_mValue this (b2z b))
    else Done (set_mType this kConstExprUnknown).

(** [ConstantExpression(const ConstantExpression *cond,
    const ConstantExpression *trueVal, const ConstantExpression *falseVal)]. *)
Definition ConstantExpression_ternary (mem : Indeterminate)
    (cond trueVal falseVal : ConstantExpression) : outcome ConstantExpression :=
  let this :=
    construct mem
      ("(" ++ expr cond ++ "?" ++ expr trueVal ++ ":" ++ expr falseVal ++ ")")%string
      kConstExprTernary in
  k <- usualArithmeticConversion (mValueKind trueVal) (mValueKind falseVal) ;;
  let this := set_mValueKind this k in
  match SWITCH_KIND (mValueKind this) with
  | Some T =>
      Done (set_mValue this
              (castTo Tuint64
                 (if negb (mValue cond =? 0)
                  then castTo T (mValue trueVal)
                  else castTo T (mValue falseVal))))
  | None => Done (set_mType this kConstExprUnknown)
  end.

(* ===================================================================== *)
(** ** Renderers *)
(* ===================================================================== *)

Definition kName (k : Kind) : string :=
  match k with
  | KIND_BOOL => "bool" | KIND_OPAQUE => "void *"
  | KIND_INT8 => "int8_t" | KIND_UINT8 => "uint8_t"
  | KIND_INT16 => "int16_t" | KIND_UINT16 => "uint16_t"
  | KIND_INT32 => "int32_t" | KIND_UINT32 => "uint32_t"
  | KIND_INT64 => "int64_t" | KIND_UINT64 => "uint64_t"
  | KIND_FLOAT => "float" | KIND_DOUBLE => "double"
  end.

Definition description (this : ConstantExpression) : string :=
  if isUnknown (mType this) then expr this
  else ("(" ++ kName (mValueKind this) ++ ")" ++ expr this)%string.

Definition value0 (this : ConstantExpression) (castKind : Kind) : outcome string :=
  if isUnknown (mType this) then Done (expr this)
  else
    match SWITCH_KIND castKind with
    | Some T => v <- cast T this ;; Done (to_string v)
    | None => Done (expr this)
    end.

Definition value (this : ConstantExpression) : outcome string :=
  value0 this (mValueKind this).

(** [ScalarType(KIND_INT64).getCppType(StorageMode_Stack, &extra, true)];
    ScalarType is not under src/, the result is the one the source's own
    comment gives. *)
Definition getCppType_INT64 : string := "int64_t".

Definition cppValue (this : ConstantExpression) (castKind : Kind) : outcome string :=
  literal <- value0 this castKind ;;
  if Kind_eqb castKind KIND_INT64 && (castTo Tint64 (mValue this) =? INT64_MIN)
  then Done ("(" ++ getCppType_INT64 ++ ")(" ++ literal ++ "ull)")%string
  else
    let literal :=
      if Kind_eqb castKind KIND_UINT32 || Kind_eqb castKind KIND_UINT64
      then (literal ++ "u")%string else literal in
    let literal :=
      if Kind_eqb castKind KIND_UINT64 || Kind_eqb castKind KIND_INT64
      then (literal ++ "ll")%string else literal in
    Done literal.

Definition javaValue (this : ConstantExpression) (castKind : Kind) : outcome string :=
  match castKind with
  | KIND_UINT64 => value0 this KIND_INT64
  | KIND_UINT32 => value0 this KIND_INT32
  | KIND_UINT16 => value0 this KIND_INT16
  | KIND_UINT8 => value0 this KIND_INT8
  | KIND_BOOL =>
      if isUnknown (mType this) then Done (expr this)
      else b <- cast Tbool this ;; Done (if b =? 0 then "false" else "true")
  | _ => value0 this castKind
  end.

(* ===================================================================== *)
(** ** The literal constructor over the library's own parser *)
(* ===================================================================== *)

(** The literal constructor with the call [base::ParseUint(newVal, &mValue)]
    left open: [parse] stands for the library function.  With [ParseUint] it
    is [ConstantExpression_literal]. *)
Definition ConstantExpression_literal_with (parse : string -> option Z)
    (mem : Indeterminate) (value : string) (type : ConstExprType)
  : outcome ConstantExpression :=
  let this := construct mem value type in
  if isUnknown (mType this) then Done this
  else
    let chars := list_ascii_of_string value in
    let isHex := isHexPrefix chars in
    let '(tail, isLong, isUnsigned) := stripSuffix (List.rev chars) false false in
    let newVal := string_of_list_ascii (List.rev tail) in
    match parse newVal with
    | None => Abort
    | Some v =>
        let this := set_mValue this v in
        Done
          (if isLong then
             if isUnsigned then set_mValueKind this KIND_UINT64
             else set_mValueKind this KIND_INT64
           else if isUnsigned then
             if mValue this <=? UINT32_MAX then set_mValueKind this KIND_UINT32
             else set_mValueKind this KIND_UINT64
           else if isHex then
             if mValue this <=? INT32_MAX then set_mValueKind this KIND_INT32
             else if mValue this <=? UINT32_MAX then set_mValueKind this KIND_UINT32
             else if mValue this <=? INT64_MAX then set_mValueKind this KIND_INT64
             else if mValue this <=? UINT64_MAX then set_mValueKind this KIND_UINT64
             else this
           else
             if mValue this <=? INT32_MAX then set_mValueKind this KIND_INT32
             else set_mValueKind this KIND_INT64)
    end.

(** [isspace] in the C locale: space and the controls from tab to carriage
    return. *)
Definition isspace (c : ascii) : bool :=
  let n := Z.of_N (N_of_ascii c) in
  (n =? 32) || ((9 <=? n) && (n <=? 13)).

Fixpoint skipSpace (s : list ascii) : list ascii :=
  match s with
  | c :: s' => if isspace c then skipSpace s' else s
  | [] => []
  end.

(** [android::base::ParseUint] for [uint64_t] as android-base writes it: it
    picks base 16 for a text that starts with [0x]/[0X] and base 10
    otherwise, calls [strtoull], and fails when [strtoull] reports a range
    error, consumed nothing, or stopped before the end of the text.
    [strtoull] itself skips leading white space, takes an optional sign,
    skips the [0x] prefix in base 16, reads the digits, and negates the
    result as an unsigned 64-bit number after a [-].  This reading accepts
    more texts than [ParseUint] above, which follows section 4.2 of the
    specification to the letter; on the texts that one accepts the two
    agree. *)
Definition strtoullParseUint (s : string) : option Z :=
  let cs := list_ascii_of_string s in
  let hex := isHexPrefix cs in
  let afterSpace := skipSpace cs in
  let neg :=
    match afterSpace with
    | c :: _ => Ascii.eqb c "-"
    | [] => false
    end in
  let afterSign :=
    match afterSpace with
    | c :: rest => if Ascii.eqb c "-" || Ascii.eqb c "+" then rest else afterSpace
    | [] => []
    end in
  let digits := if hex && isHexPrefix afterSign then skipn 2 afterSign else afterSign in
  match digits with
  | [] => None
  | _ =>
      match parseDigits (if hex then 16 else 10) 0 digits with
      | Some v =>
          if v <=? UINT64_MAX
          then Some (if neg then wrapUnsigned 64 (- v) else v)
          else None
      | None => None
      end
  end.


(* ===================================================================== *)
(** ** Vocabulary of the specification *)
(* ===================================================================== *)

(** The kinds arithmetic is defined on: boolean and the eight integers. *)
Definition arithmeticKind (k : Kind) : bool :=
  match k with
  | KIND_OPAQUE | KIND_FLOAT | KIND_DOUBLE => false
  | _ => true
  end.

(** The kinds at least 32 bits wide. *)
Definition wideKinds : list Kind := [KIND_INT32; KIND_UINT32; KIND_INT64; KIND_UINT64].

(** What a parent reads of a node besides its text. *)
Definition fields (e : ConstantExpression) : ConstExprType * Kind * Z :=
  (mType e, mValueKind e, mValue e).

(** The exact, unbounded result of a unary operator of the grammar. *)
Definition applyUnary (op : string) (v : Z) : Z :=
  if OPEQ op "+" then v
  else if OPEQ op "-" then - v
  else if OPEQ op "!" then b2z (v =? 0)
  else Z.lnot v.

(** The suffix alphabet of a literal. *)
Definition suffixChar (c : ascii) : Prop := (isU c || isL c)%bool = true.

Definition unaryOps : list string := ["+"; "-"; "!"; "~"].

(** Section 4.2 of the specification: whether a kind can hold a parsed
    value, and the kind inference table in its priority order. *)
Definition holds (k : Kind) (v : Z) : bool :=
  match k with
  | KIND_INT32 => v <=? INT32_MAX
  | KIND_UINT32 => v <=? UINT32_MAX
  | KIND_INT64 => v <=? INT64_MAX
  | KIND_UINT64 => v <=? UINT64_MAX
  | _ => false
  end.

Definition smallestOf (ks : list Kind) (v : Z) : option Kind :=
  find (fun k => holds k v) ks.

Definition tableKind (long unsigned hex : bool) (v : Z) : option Kind :=
  match long, unsigned, hex with
  | true, true, _ => Some KIND_UINT64
  | true, false, _ => Some KIND_INT64
  | false, true, _ => Some (if v <=? UINT32_MAX then KIND_UINT32 else KIND_UINT64)
  | false, false, true => smallestOf wideKinds v
  | false, false, false => Some (if v <=? INT32_MAX then KIND_INT32 else KIND_INT64)
  end.

(** A node is stored at its kind when reading [mValue] at the kind and
    writing it back gives [mValue] again. *)
Definition storedAtKind (e : ConstantExpression) : Prop :=
  exists T, SWITCH_KIND (mValueKind e) = Some T /\
            castTo Tuint64 (castTo T (mValue e)) = mValue e.

(** The nodes the four constructors return. *)
Inductive constructed : ConstantExpression -> Prop :=
| constructed_literal mem value type e :
    ConstantExpression_literal mem value type = Done e -> constructed e
| constructed_unary mem op x e :
    ConstantExpression_unary mem op x = Done e -> constructed e
| constructed_binary mem l op r e :
    ConstantExpression_binary mem l op r = Done e -> constructed e
| constructed_ternary mem c t f e :
    ConstantExpression_ternary mem c t f = Done e -> constructed e.

(** The kinds the constructors ever give a node. *)
Definition resultKinds : list Kind :=
  [KIND_BOOL; KIND_INT32; KIND_UINT32; KIND_INT64; KIND_UINT64].

(** The nodes of an expression tree that evaluated: built bottom-up by the
    constructors from literals, every node of the tree other than Unknown. *)
Inductive evaluated : ConstantExpression -> Prop :=
| evaluated_literal mem value type e :
    ConstantExpression_literal mem value type = Done e ->
    mType e <> kConstExprUnknown -> evaluated e
| evaluated_unary mem op x e :
    evaluated x ->
    ConstantExpression_unary mem op x = Done e ->
    mType e <> kConstExprUnknown -> evaluated e
| evaluated_binary mem l op r e :
    evaluated l -> evaluated r ->
    ConstantExpression_binary mem l op r = Done e ->
    mType e <> kConstExprUnknown -> evaluated e
| evaluated_ternary mem c t f e :
    evaluated c -> evaluated t -> evaluated f ->
    ConstantExpression_ternary mem c t f = Done e ->
    mType e <> kConstExprUnknown -> evaluated e.

(** The exact result of a comparison operator of the grammar. *)
Definition applyComparison (op : string) (a b : Z) : bool :=
  if OPEQ op "==" then a =? b
  else if OPEQ op "!=" then negb (a =? b)
  else if OPEQ op "<" then a <? b
  else if OPEQ op ">" then b <? a
  else if OPEQ op "<=" then a <=? b
  else b <=? a.

(** The operators whose operands may be exchanged. *)
Definition symmetricOps : list string := ["+"; "*"; "|"; "^"; "&"; "=="; "!="].

(* ===================================================================== *)
(** * Properties *)
(* ===================================================================== *)

(** ** Native conversions *)

Ltac pow2 :=
  repeat match goal with
         | |- context [2 ^ ?n] =>
             let v := eval vm_compute in (2 ^ n) in change (2 ^ n) with v
         end.

Ltac unfold_cast := cbv [castTo wrapUnsigned wrapSigned]; pow2.

Ltac modarith := Z.div_mod_to_equations; lia.

(** Evaluates [digitOf] on the concrete character at the head of the text
    being parsed, and the test of the digit against the base. *)
Ltac read_digit :=
  match goal with
  | |- context [digitOf ?c] =>
      let v := eval vm_compute in (digitOf c) in change (digitOf c) with v
  end;
  cbv iota;
  match goal with
  | |- (if ?c then _ else _) = _ => change c with true; cbv iota
  end.

(** Splits a test on the operator token into one goal per operator. *)
Ltac split_ops H :=
  unfold OP_IS_BIN_ARITHMETIC, OP_IS_BIN_BITFLIP, OP_IS_BIN_COMP,
    OP_IS_BIN_SHIFT, OP_IS_BIN_LOGICAL in H;
  repeat match type of H with
         | (_ || _)%bool = true => apply orb_true_iff in H; destruct H as [H | H]
         end;
  unfold OPEQ in H; apply String.eqb_eq in H; subst.

(** A value of type [T] survives being stored in the 64-bit member and read
    back at [T]. *)
Lemma castTo_storage T z : castTo T (castTo Tuint64 (castTo T z)) = castTo T z.
Proof.
  destruct T; unfold_cast; try modarith.
  destruct (z =? 0); reflexivity.
Qed.

Lemma castTo_idem T z : castTo T (castTo T z) = castTo T z.
Proof.
  destruct T; unfold_cast; try modarith.
  destruct (z =? 0); reflexivity.
Qed.


Lemma castTo_uint64_small z : 0 <= z <= UINT64_MAX -> castTo Tuint64 z = z.
Proof. unfold UINT64_MAX. unfold_cast. intros H. modarith. Qed.

Lemma castTo_int64_range z : INT64_MIN <= castTo Tint64 z <= INT64_MAX.
Proof. unfold INT64_MIN, INT64_MAX. unfold_cast. modarith. Qed.

(** For an integer type the detour through the promoted type is invisible. *)
Lemma retT_integer T z : T <> Tbool -> retT T z = castTo T z.
Proof.
  intros HT. unfold retT.
  destruct T; try congruence; cbv [promoteT]; unfold_cast; modarith.
Qed.

Lemma retT_bool_small z : -2147483648 <= z <= 2147483647 -> retT Tbool z = castTo Tbool z.
Proof.
  intros H. unfold retT. cbv [promoteT]. f_equal. unfold_cast. modarith.
Qed.

Lemma castTo_bool_cases z : castTo Tbool z = 0 \/ castTo Tbool z = 1.
Proof. simpl. destruct (z =? 0); auto. Qed.

(** ** Kind model *)

Lemma integralPromotion_wide k : In (integralPromotion k) wideKinds \/
                                 (arithmeticKind k = false /\ integralPromotion k = k).
Proof. destruct k; vm_compute; intuition. Qed.

Lemma integralPromotion_arithmetic k :
  arithmeticKind k = true -> In (integralPromotion k) wideKinds.
Proof. destruct k; vm_compute; intuition discriminate. Qed.

Lemma integralPromotion_idempotent k :
  integralPromotion (integralPromotion k) = integralPromotion k.
Proof. destruct k; reflexivity. Qed.

Lemma usualArithmeticConversion_commutative a b :
  usualArithmeticConversion a b = usualArithmeticConversion b a.
Proof. destruct a, b; reflexivity. Qed.

Lemma usualArithmeticConversion_wide a b :
  In a wideKinds -> In b wideKinds ->
  exists r, usualArithmeticConversion a b = Done r /\ In r wideKinds.
Proof.
  unfold wideKinds; simpl; intros Ha Hb.
  repeat match goal with H : _ \/ _ |- _ => destruct H end; subst;
    try contradiction; eexists; (split; [reflexivity | simpl; tauto]).
Qed.

Lemma wideKinds_switch k : In k wideKinds -> exists T, SWITCH_KIND k = Some T.
Proof.
  unfold wideKinds; simpl; intros H.
  repeat match goal with H : _ \/ _ |- _ => destruct H end; subst;
    try contradiction; eexists; reflexivity.
Qed.

(** C10: on boolean and integer kinds [usualArithmeticConversion] returns
    one of its two arguments and never reaches its fatal branch; unless one
    argument is boolean, the rank of the result is at least the rank of each
    argument. *)
Theorem usualArithmeticConversion_picks_argument (a b : Kind) :
  arithmeticKind a = true -> arithmeticKind b = true ->
  exists r, usualArithmeticConversion a b = Done r /\
            (r = a \/ r = b) /\
            (a <> KIND_BOOL -> b <> KIND_BOOL ->
             kindValue a <= kindValue r /\ kindValue b <= kindValue r).
Proof.
  intros Ha Hb.
  destruct a; try discriminate Ha; destruct b; try discriminate Hb;
    eexists; (split; [reflexivity |]); (split; [auto |]);
    intros Ha' Hb'; try congruence; simpl; lia.
Qed.

Lemma usualArithmeticConversion_picks_argument_witness :
  exists r, usualArithmeticConversion KIND_INT64 KIND_UINT32 = Done r /\
            (r = KIND_INT64 \/ r = KIND_UINT32) /\
            (KIND_INT64 <> KIND_BOOL -> KIND_UINT32 <> KIND_BOOL ->
             kindValue KIND_INT64 <= kindValue r /\ kindValue KIND_UINT32 <= kindValue r).
Proof.
  apply (usualArithmeticConversion_picks_argument KIND_INT64 KIND_UINT32); reflexivity.
Defined.

(** The rank bound of C10 also holds when an argument is boolean. *)
Lemma usualArithmeticConversion_is_max a b r :
  arithmeticKind a = true -> arithmeticKind b = true ->
  usualArithmeticConversion a b = Done r ->
  kindValue r = Z.max (kindValue a) (kindValue b).
Proof.
  intros Ha Hb.
  destruct a; try discriminate Ha; destruct b; try discriminate Hb;
    intros [= <-]; reflexivity.
Qed.

(** ** Operators *)

Lemma isUnknown_false t : t <> kConstExprUnknown -> isUnknown t = false.
Proof. destruct t; simpl; congruence. Qed.

Lemma isUnknown_true t : isUnknown t = true -> t = kConstExprUnknown.
Proof. destruct t; simpl; congruence. Qed.

Lemma cast_Done T x v : cast T x = Done v -> isUnknown (mType x) = false.
Proof. unfold cast. destruct (isUnknown (mType x)); congruence. Qed.

(** C6: a unary node built with [+ - ! ~] from a node that is not Unknown
    has the kind of its operand, unpromoted.  When that kind is boolean or an
    integer the node is a Unary node and its stored value is the operator's
    result on the operand read at that kind, brought back into the kind's
    range; for the other kinds the node is Unknown. *)
Theorem unary_keeps_kind mem op x :
  mType x <> kConstExprUnknown -> In op unaryOps ->
  exists e, ConstantExpression_unary mem op x = Done e /\
    mValueKind e = mValueKind x /\
    (arithmeticKind (mValueKind x) = true ->
     exists T, SWITCH_KIND (mValueKind x) = Some T /\
       mType e = kConstExprUnary /\
       mValue e = castTo Tuint64 (castTo T (applyUnary op (castTo T (mValue x))))) /\
    (arithmeticKind (mValueKind x) = false -> mType e = kConstExprUnknown).
Proof.
  intros Hx Hop. unfold ConstantExpression_unary.
  rewrite (isUnknown_false _ Hx).
  cbn [mValueKind set_mValueKind].
  destruct (SWITCH_KIND (mValueKind x)) as [T|] eqn:HT.
  - assert (Hh : handleUnary T op (castTo T (mValue x)) =
                 Done (castTo T (applyUnary op (castTo T (mValue x))))).
    { assert (Hr : forall z, -2 <= z <= 1 \/ T <> Tbool -> retT T z = castTo T z).
      { intros z [Hz | Hz]; [|now apply retT_integer].
        destruct T; try (apply retT_integer; congruence).
        apply retT_bool_small; lia. }
      assert (Hb : T = Tbool -> castTo T (mValue x) = 0 \/ castTo T (mValue x) = 1).
      { intros ->. apply castTo_bool_cases. }
      assert (Hd : T = Tbool \/ T <> Tbool) by (destruct T; auto; right; congruence).
      simpl in Hop.
      destruct Hop as [<- | [<- | [<- | [<- | []]]]];
        cbv [handleUnary applyUnary OPEQ String.eqb Ascii.eqb Bool.eqb];
        rewrite Hr; try reflexivity;
        destruct Hd as [Hd | Hd]; auto; left; destruct (Hb Hd) as [-> | ->];
        cbv; intuition congruence. }
    rewrite Hh. cbn [bind]. eexists; split; [reflexivity|].
    split; [reflexivity|]. split.
    + intros _. exists T. repeat split.
    + intros Hk. destruct (mValueKind x); discriminate.
  - eexists; split; [reflexivity|]. split; [reflexivity|]. split.
    + intros Hk. destruct (mValueKind x); discriminate.
    + intros _. reflexivity.
Qed.

Lemma unary_keeps_kind_witness :
  exists e,
    ConstantExpression_unary (mkIndeterminate KIND_DOUBLE 7) "-"
      (mkConstantExpression "1u" kConstExprLiteral KIND_UINT32 1) = Done e /\
    mValueKind e = KIND_UINT32 /\
    mType e = kConstExprUnary /\
    mValue e = 4294967295.
Proof.
  destruct (unary_keeps_kind (mkIndeterminate KIND_DOUBLE 7) "-"
              (mkConstantExpression "1u" kConstExprLiteral KIND_UINT32 1))
    as [e [He [Hk [Hv _]]]].
  - simpl. discriminate.
  - simpl. tauto.
  - destruct (Hv eq_refl) as [T [HT [Ht Hval]]].
    cbn [mValueKind SWITCH_KIND] in HT. injection HT as <-.
    exists e. split; [exact He|]. split; [exact Hk|]. split; [exact Ht|].
    rewrite Hval. reflexivity.
Defined.

(** Unary minus on [1u] stays [uint32_t] and wraps, as the source's notes
    on unary operators say. *)
Example unary_minus_1u :
  omap fields
    (ConstantExpression_unary (mkIndeterminate KIND_DOUBLE 7) "-"
       (mkConstantExpression "1u" kConstExprLiteral KIND_UINT32 1))
  = Done (kConstExprUnary, KIND_UINT32, 4294967295).
Proof. reflexivity. Qed.

(** ** Binary nodes *)

(** The shift case of the binary constructor, reached with [<<] or [>>]. *)
Lemma binary_shift_case mem lval op rval :
  OP_IS_BIN_SHIFT op = true ->
  isUnknown (mType lval) = false -> isUnknown (mType rval) = false ->
  ConstantExpression_binary mem lval op rval =
  (let this :=
     set_mValueKind
       (construct mem ("(" ++ expr lval ++ " " ++ op ++ " " ++ expr rval ++ ")")%string
          kConstExprBinary)
       (integralPromotion (mValueKind lval)) in
   numBits <- cast Tint64 rval ;;
   flipped <- (if numBits <? 0 then
                 if numBits =? INT64_MIN then Undefined
                 else Done (if OPEQ op "<<" then ">>" else "<<", - numBits)
               else Done (op, numBits)) ;;
   match SWITCH_KIND (integralPromotion (mValueKind lval)) with
   | Some T =>
       v <- handleShift T (castTo T (mValue lval)) (fst flipped) (snd flipped) ;;
       Done (set_mValue this (castTo Tuint64 v))
   | None => Done (set_mType this kConstExprUnknown)
   end).
Proof.
  intros Hop Hl Hr. unfold ConstantExpression_binary. rewrite Hl, Hr.
  split_ops Hop; cbn -[cast castTo integralPromotion SWITCH_KIND handleShift INT64_MIN Z.ltb Z.eqb];
    destruct (cast Tint64 rval) as [n| |]; cbn [bind]; try reflexivity;
    (destruct (n <? 0); [destruct (n =? INT64_MIN)|]); reflexivity.
Qed.

(** C5: a shift whose count reads as the negative number [- n] evaluates as
    the opposite shift by [n]: both constructions give the same type tag,
    kind and stored value (they end the same way when the native shift has
    no result), and the kind is the integral promotion of the left operand's
    kind.  For a count below the promoted width the results are spelled
    out. *)
Theorem shift_negative_count_flips mem x r r' n :
  mType x <> kConstExprUnknown -> 0 < n ->
  cast Tint64 r = Done (- n) -> cast Tint64 r' = Done n ->
  omap fields (ConstantExpression_binary mem x "<<" r) =
    omap fields (ConstantExpression_binary mem x ">>" r') /\
  omap fields (ConstantExpression_binary mem x ">>" r) =
    omap fields (ConstantExpression_binary mem x "<<" r') /\
  (forall op e, OP_IS_BIN_SHIFT op = true ->
    ConstantExpression_binary mem x op r = Done e \/
    ConstantExpression_binary mem x op r' = Done e ->
    mValueKind e = integralPromotion (mValueKind x)) /\
  (forall T, SWITCH_KIND (integralPromotion (mValueKind x)) = Some T ->
     n < promotedWidth T ->
     (exists e, ConstantExpression_binary mem x "<<" r = Done e /\
        mValue e = castTo Tuint64 (retT T (Z.shiftr (castTo T (mValue x)) n))) /\
     (exists e, ConstantExpression_binary mem x ">>" r = Done e /\
        mValue e = castTo Tuint64 (retT T (Z.shiftl (castTo T (mValue x)) n)))).
Proof.
  intros Hx Hn Hr Hr'.
  pose proof (isUnknown_false _ Hx) as Ux.
  pose proof (cast_Done _ _ _ Hr) as Ur.
  pose proof (cast_Done _ _ _ Hr') as Ur'.
  assert (Hneg : (- n <? 0) = true) by (apply Z.ltb_lt; lia).
  assert (Hpos : (n <? 0) = false) by (apply Z.ltb_ge; lia).
  assert (Hmin : (- n =? INT64_MIN) = false).
  { apply Z.eqb_neq. intros E.
    assert (Hc : cast Tint64 r' = Done n) by exact Hr'.
    unfold cast in Hc. rewrite Ur' in Hc.
    destruct (SWITCH_KIND (mValueKind r')); [|discriminate].
    injection Hc as Hc.
    assert (Hrange : INT64_MIN <= n <= INT64_MAX)
      by (rewrite <- Hc; apply (castTo_int64_range (castTo c (mValue r')))).
    unfold INT64_MIN, INT64_MAX in *. lia. }
  split; [|split; [|split]].
  - rewrite !binary_shift_case by (auto; reflexivity).
    cbn zeta. rewrite Hr, Hr'. cbn [bind]. rewrite Hneg, Hpos, Hmin.
    rewrite Z.opp_involutive. cbn [bind fst snd].
    change (OPEQ "<<" "<<") with true. cbv iota.
    destruct (SWITCH_KIND (integralPromotion (mValueKind x))); [|reflexivity].
    destruct (handleShift _ _ _ _); reflexivity.
  - rewrite !binary_shift_case by (auto; reflexivity).
    cbn zeta. rewrite Hr, Hr'. cbn [bind]. rewrite Hneg, Hpos, Hmin.
    rewrite Z.opp_involutive. cbn [bind fst snd].
    change (OPEQ ">>" "<<") with false. cbv iota.
    destruct (SWITCH_KIND (integralPromotion (mValueKind x))); [|reflexivity].
    destruct (handleShift _ _ _ _); reflexivity.
  - intros op e Hop He.
    rewrite !binary_shift_case in He by auto.
    cbn zeta in He. rewrite Hr, Hr' in He. cbn [bind] in He.
    rewrite Hneg, Hpos, Hmin in He. cbn [bind fst snd] in He.
    destruct (SWITCH_KIND (integralPromotion (mValueKind x))).
    + destruct He as [He | He];
        match type of He with
        | bind ?h _ = _ => destruct h; cbn [bind] in He; try discriminate
        end; injection He as <-; reflexivity.
    + destruct He as [He | He]; injection He as <-; reflexivity.
  - intros T HT Hw.
    assert (Hin : ((0 <=? n) && (n <? promotedWidth T))%bool = true).
    { apply andb_true_iff; split; [apply Z.leb_le | apply Z.ltb_lt]; lia. }
    rewrite !binary_shift_case by (auto; reflexivity).
    cbn zeta. rewrite Hr. cbn [bind]. rewrite Hneg, Hmin, HT.
    rewrite Z.opp_involutive. cbn [bind fst snd].
    change (OPEQ "<<" "<<") with true. change (OPEQ ">>" "<<") with false.
    cbv iota. unfold handleShift, nativeShift.
    change (OPEQ ">>" ">>") with true. change (OPEQ "<<" ">>") with false.
    change (OPEQ "<<" "<<") with true. cbv iota. rewrite Hin. cbn [bind].
    split; eexists; split; reflexivity.
Qed.

Lemma shift_negative_count_flips_witness :
  omap fields
    (ConstantExpression_binary (mkIndeterminate KIND_DOUBLE 7)
       (mkConstantExpression "16" kConstExprLiteral KIND_INT32 16) "<<"
       (mkConstantExpression "(-3)" kConstExprUnary KIND_INT32 18446744073709551613)) =
  omap fields
    (ConstantExpression_binary (mkIndeterminate KIND_DOUBLE 7)
       (mkConstantExpression "16" kConstExprLiteral KIND_INT32 16) ">>"
       (mkConstantExpression "3" kConstExprLiteral KIND_INT32 3)) /\
  omap fields
    (ConstantExpression_binary (mkIndeterminate KIND_DOUBLE 7)
       (mkConstantExpression "16" kConstExprLiteral KIND_INT32 16) ">>"
       (mkConstantExpression "(-3)" kConstExprUnary KIND_INT32 18446744073709551613)) =
  omap fields
    (ConstantExpression_binary (mkIndeterminate KIND_DOUBLE 7)
       (mkConstantExpression "16" kConstExprLiteral KIND_INT32 16) "<<"
       (mkConstantExpression "3" kConstExprLiteral KIND_INT32 3)).
Proof.
  pose proof (shift_negative_count_flips (mkIndeterminate KIND_DOUBLE 7)
                (mkConstantExpression "16" kConstExprLiteral KIND_INT32 16)
                (mkConstantExpression "(-3)" kConstExprUnary KIND_INT32
                   18446744073709551613)
                (mkConstantExpression "3" kConstExprLiteral KIND_INT32 3) 3) as H.
  assert (H1 : mType (mkConstantExpression "16" kConstExprLiteral KIND_INT32 16)
               <> kConstExprUnknown) by (simpl; discriminate).
  assert (H2 : 0 < 3) by lia.
  destruct (H H1 H2 eq_refl eq_refl) as [Ha [Hb _]]. split; assumption.
Defined.

(** [16 << -3] is [16 >> 3], which is 2, at kind [int32_t]. *)
Example shift_16_by_minus_3 :
  omap fields
    (ConstantExpression_binary (mkIndeterminate KIND_DOUBLE 7)
       (mkConstantExpression "16" kConstExprLiteral KIND_INT32 16) "<<"
       (mkConstantExpression "(-3)" kConstExprUnary KIND_INT32 18446744073709551613))
  = Done (kConstExprBinary, KIND_INT32, 2).
Proof. reflexivity. Qed.


(** The arithmetic, bitwise and comparison case of the binary constructor. *)
Lemma binary_common_case mem lval op rval :
  (OP_IS_BIN_ARITHMETIC op || OP_IS_BIN_BITFLIP op || OP_IS_BIN_COMP op)%bool = true ->
  isUnknown (mType lval) = false -> isUnknown (mType rval) = false ->
  ConstantExpression_binary mem lval op rval =
  (let this :=
     construct mem ("(" ++ expr lval ++ " " ++ op ++ " " ++ expr rval ++ ")")%string
       kConstExprBinary in
   promoted <- usualArithmeticConversion
                 (integralPromotion (mValueKind lval))
                 (integralPromotion (mValueKind rval)) ;;
   let this :=
     set_mValueKind this
       (if (OP_IS_BIN_ARITHMETIC op || OP_IS_BIN_BITFLIP op)%bool
        then promoted else KIND_BOOL) in
   match SWITCH_KIND promoted with
   | Some T =>
       v <- handleBinaryCommon T (castTo T (mValue lval)) op (castTo T (mValue rval)) ;;
       Done (set_mValue this (castTo Tuint64 v))
   | None => Done (set_mType this kConstExprUnknown)
   end).
Proof.
  intros Hop Hl Hr. unfold ConstantExpression_binary. rewrite Hl, Hr.
  cbn [orb]. rewrite Hop. reflexivity.
Qed.

(** When [handleBinaryCommon] has no result, the operator is [/] or [%]; it
    never aborts on an operator of the common case. *)
Lemma handleBinaryCommon_outcome T l op r :
  (OP_IS_BIN_ARITHMETIC op || OP_IS_BIN_BITFLIP op || OP_IS_BIN_COMP op)%bool = true ->
  match handleBinaryCommon T l op r with
  | Done _ => True
  | Abort => False
  | Undefined => (OPEQ op "/" || OPEQ op "%")%bool = true
  end.
Proof.
  intros Hop. split_ops Hop;
    cbv [handleBinaryCommon OPEQ String.eqb Ascii.eqb Bool.eqb nativeDivRem orb];
    repeat match goal with |- context [if ?c then _ else _] => destruct c end; auto.
Qed.

(** C9: a binary node built with an arithmetic, bitwise or shift operator
    from two nodes that are not Unknown and whose kinds are boolean or
    integer is a Binary node whose kind is one of [int32_t], [uint32_t],
    [int64_t], [uint64_t].  The constructor never aborts on such operands;
    it has no result only where the native operator has none ([/], [%] and
    the shifts). *)
Theorem binary_result_kind_is_wide mem lval op rval :
  mType lval <> kConstExprUnknown -> mType rval <> kConstExprUnknown ->
  arithmeticKind (mValueKind lval) = true ->
  arithmeticKind (mValueKind rval) = true ->
  (OP_IS_BIN_ARITHMETIC op || OP_IS_BIN_BITFLIP op || OP_IS_BIN_SHIFT op)%bool = true ->
  match ConstantExpression_binary mem lval op rval with
  | Done e => mType e = kConstExprBinary /\ In (mValueKind e) wideKinds
  | Abort => False
  | Undefined => (OPEQ op "/" || OPEQ op "%" || OP_IS_BIN_SHIFT op)%bool = true
  end.
Proof.
  intros Hl Hr Kl Kr Hop.
  apply isUnknown_false in Hl. apply isUnknown_false in Hr.
  pose proof (integralPromotion_arithmetic _ Kl) as Pl.
  pose proof (integralPromotion_arithmetic _ Kr) as Pr.
  apply orb_true_iff in Hop. destruct Hop as [Hop | Hop].
  - (* arithmetic and bitwise operators *)
    rewrite binary_common_case by (auto; rewrite Hop; reflexivity).
    cbn zeta. rewrite Hop.
    destruct (usualArithmeticConversion_wide _ _ Pl Pr) as [k [-> Hk]].
    cbn [bind]. destruct (wideKinds_switch _ Hk) as [T ->].
    pose proof (handleBinaryCommon_outcome T (castTo T (mValue lval)) op
                  (castTo T (mValue rval))) as Hh.
    rewrite Hop in Hh. specialize (Hh eq_refl).
    destruct (handleBinaryCommon T _ op _); cbn [bind].
    + split; [reflexivity | exact Hk].
    + exact Hh.
    + rewrite Hh. reflexivity.
  - (* shifts *)
    rewrite binary_shift_case by auto. cbn zeta.
    assert (Hc : exists n, cast Tint64 rval = Done n).
    { unfold cast. rewrite Hr. destruct (mValueKind rval); try discriminate Kr;
        eexists; reflexivity. }
    destruct Hc as [n ->]. cbn [bind].
    rewrite Hop, !orb_true_r.
    destruct (wideKinds_switch _ Pl) as [T ->].
    assert (Hs : forall o c, OP_IS_BIN_SHIFT o = true ->
                   handleShift T (castTo T (mValue lval)) o c <> Abort).
    { intros o c Ho. split_ops Ho;
        cbv [handleShift OPEQ String.eqb Ascii.eqb Bool.eqb nativeShift];
        destruct ((0 <=? c) && (c <? promotedWidth T))%bool; discriminate. }
    destruct (n <? 0); [destruct (n =? INT64_MIN)|]; cbn [bind fst snd]; auto.
    + assert (Ho : OP_IS_BIN_SHIFT (if OPEQ op "<<" then ">>" else "<<") = true)
        by (destruct (OPEQ op "<<"); reflexivity).
      specialize (Hs _ (- n) Ho).
      destruct (handleShift T _ _ _); cbn [bind];
        [split; [reflexivity | exact Pl] | congruence | reflexivity].
    + specialize (Hs _ n Hop).
      destruct (handleShift T _ _ _); cbn [bind];
        [split; [reflexivity | exact Pl] | congruence | reflexivity].
Qed.

Lemma binary_result_kind_is_wide_witness :
  match ConstantExpression_binary (mkIndeterminate KIND_DOUBLE 7)
          (mkConstantExpression "(1 < 2)" kConstExprBinary KIND_BOOL 1) "+"
          (mkConstantExpression "2u" kConstExprLiteral KIND_UINT32 2) with
  | Done e => mType e = kConstExprBinary /\ In (mValueKind e) wideKinds
  | Abort => False
  | Undefined => (OPEQ "+" "/" || OPEQ "+" "%" || OP_IS_BIN_SHIFT "+")%bool = true
  end.
Proof.
  apply (binary_result_kind_is_wide (mkIndeterminate KIND_DOUBLE 7)
           (mkConstantExpression "(1 < 2)" kConstExprBinary KIND_BOOL 1) "+"
           (mkConstantExpression "2u" kConstExprLiteral KIND_UINT32 2)).
  - simpl; discriminate.
  - simpl; discriminate.
  - reflexivity.
  - reflexivity.
  - reflexivity.
Defined.

(** ** Literals *)

Lemma list_ascii_of_string_app (a b : string) :
  list_ascii_of_string (a ++ b) = (list_ascii_of_string a ++ list_ascii_of_string b)%list.
Proof. induction a as [|c a IH]; simpl; [reflexivity | now rewrite IH]. Qed.

Lemma existsb_reverse {A} (f : A -> bool) (l : list A) :
  existsb f (List.rev l) = existsb f l.
Proof.
  induction l as [|a l IH]; [reflexivity|].
  simpl. rewrite existsb_app, IH. simpl. rewrite orb_false_r. apply orb_comm.
Qed.

(** The loop consumes a run of suffix letters and collects the flags. *)
Lemma stripSuffix_run s rest isLong isUnsigned :
  Forall suffixChar s ->
  stripSuffix (s ++ rest) isLong isUnsigned =
  stripSuffix rest (isLong || existsb isL s) (isUnsigned || existsb isU s).
Proof.
  intros Hs. revert isLong isUnsigned.
  induction Hs as [|c s Hc _ IH]; intros isLong isUnsigned.
  - simpl. now rewrite !orb_false_r.
  - simpl. unfold suffixChar in Hc. rewrite Hc, IH, !orb_assoc. reflexivity.
Qed.

(** The loop stops at a character that is not a suffix letter. *)
Lemma stripSuffix_stop c rest isLong isUnsigned :
  (isU c || isL c)%bool = false ->
  stripSuffix (c :: rest) isLong isUnsigned = (c :: rest, isLong, isUnsigned).
Proof. intros H. simpl. now rewrite H. Qed.

Lemma suffix_not_digit c : (isU c || isL c)%bool = true -> digitOf c = None.
Proof.
  unfold isU, isL. intros H.
  repeat (apply orb_true_iff in H; destruct H as [H | H]);
    apply Ascii.eqb_eq in H; subst; reflexivity.
Qed.

Lemma parseDigits_all base s : forall acc v,
  parseDigits base acc s = Some v -> Forall (fun c => digitOf c <> None) s.
Proof.
  induction s as [|c s IH]; intros acc v H; [constructor|].
  simpl in H. destruct (digitOf c) as [d|] eqn:Hd; [|discriminate].
  destruct (d <? base); [|discriminate].
  constructor; [congruence | eauto].
Qed.

Lemma parseDigits_nonneg base s : forall acc v,
  0 <= base -> 0 <= acc -> parseDigits base acc s = Some v -> 0 <= v.
Proof.
  induction s as [|c s IH]; intros acc v Hb Ha H; simpl in H.
  - injection H as <-. exact Ha.
  - destruct (digitOf c) as [d|] eqn:Hd; [|discriminate].
    destruct (d <? base); [|discriminate].
    apply (IH (acc * base + d)); auto.
    assert (0 <= d).
    { unfold digitOf in Hd.
      repeat match type of Hd with
             | (if ?t then _ else _) = _ =>
                 let E := fresh "E" in
                 destruct t eqn:E;
                 [apply andb_true_iff in E; destruct E as [E _]; apply Z.leb_le in E|]
             end; try discriminate; injection Hd as <-; lia. }
    nia.
Qed.

Lemma ParseUint_range s v : ParseUint s = Some v -> 0 <= v <= UINT64_MAX.
Proof.
  unfold ParseUint. set (cs := list_ascii_of_string s).
  destruct (if isHexPrefix cs then skipn 2 cs else cs) eqn:Hd; [discriminate|].
  destruct (parseDigits _ 0 _) as [w|] eqn:Hp; [|discriminate].
  destruct (w <=? UINT64_MAX) eqn:Hw; [|discriminate].
  intros [= <-]. split; [|now apply Z.leb_le].
  eapply parseDigits_nonneg; [| | exact Hp]; [destruct (isHexPrefix cs); lia | lia].
Qed.

(** A text that [ParseUint] accepts ends in a digit. *)
Lemma ParseUint_last_digit s v :
  ParseUint s = Some v ->
  exists pre c, list_ascii_of_string s = (pre ++ [c])%list /\ digitOf c <> None.
Proof.
  unfold ParseUint. set (cs := list_ascii_of_string s).
  set (ds := if isHexPrefix cs then skipn 2 cs else cs).
  assert (Hcs : exists p, cs = (p ++ ds)%list).
  { subst ds. destruct (isHexPrefix cs).
    - exists (firstn 2 cs). now rewrite firstn_skipn.
    - exists []. reflexivity. }
  destruct ds as [|d0 ds'] eqn:Hds; [discriminate|].
  destruct (parseDigits _ 0 _) as [w|] eqn:Hp; [|discriminate].
  intros _. apply parseDigits_all in Hp.
  destruct Hcs as [p Hcs].
  destruct (exists_last (l := d0 :: ds') ltac:(discriminate)) as [q [c Hq]].
  exists (p ++ q)%list, c. split.
  - rewrite Hcs, Hq. now rewrite app_assoc.
  - rewrite Hq in Hp. apply Forall_app in Hp. destruct Hp as [_ Hp].
    now inversion Hp.
Qed.

Lemma stripSuffix_text body sfx v :
  ParseUint body = Some v ->
  Forall suffixChar (list_ascii_of_string sfx) ->
  stripSuffix (List.rev (list_ascii_of_string (body ++ sfx))) false false =
  (List.rev (list_ascii_of_string body),
   existsb isL (list_ascii_of_string sfx), existsb isU (list_ascii_of_string sfx)).
Proof.
  intros Hp Hs.
  rewrite list_ascii_of_string_app, rev_app_distr.
  rewrite stripSuffix_run by (apply Forall_rev; exact Hs).
  rewrite !existsb_reverse. cbn [orb].
  destruct (ParseUint_last_digit _ _ Hp) as [pre [c [-> Hc]]].
  rewrite rev_app_distr. cbn [List.rev app].
  apply stripSuffix_stop.
  destruct (isU c || isL c)%bool eqn:E; [|reflexivity].
  apply suffix_not_digit in E. congruence.
Qed.

Lemma isHexPrefix_text body sfx v :
  ParseUint body = Some v ->
  Forall suffixChar (list_ascii_of_string sfx) ->
  isHexPrefix (list_ascii_of_string (body ++ sfx)) = isHexPrefix (list_ascii_of_string body).
Proof.
  intros Hp Hs. rewrite list_ascii_of_string_app.
  destruct (ParseUint_last_digit _ _ Hp) as [pre [c [E _]]].
  destruct (list_ascii_of_string body) as [|c0 [|c1 rest]].
  - destruct pre; discriminate.
  - destruct Hs as [|s l Hs _]; [reflexivity|].
    cbn [app isHexPrefix]. unfold suffixChar, isU, isL in Hs.
    repeat (apply orb_true_iff in Hs; destruct Hs as [Hs | Hs]);
      apply Ascii.eqb_eq in Hs; subst; cbn; now rewrite andb_false_r.
  - reflexivity.
Qed.

(** The literal constructor on digits followed by suffix letters: the node
    holds the parsed value and the kind of the table of section 4.2. *)
Lemma literal_parsed mem body sfx v type :
  type <> kConstExprUnknown ->
  ParseUint body = Some v ->
  Forall suffixChar (list_ascii_of_string sfx) ->
  exists k,
    tableKind (existsb isL (list_ascii_of_string sfx))
              (existsb isU (list_ascii_of_string sfx))
              (isHexPrefix (list_ascii_of_string body)) v = Some k /\
    ConstantExpression_literal mem (body ++ sfx) type =
      Done (mkConstantExpression (body ++ sfx) type k v).
Proof.
  intros Ht Hp Hs. unfold ConstantExpression_literal.
  cbn [construct mType]. rewrite (isUnknown_false _ Ht).
  rewrite (stripSuffix_text _ _ _ Hp Hs), (isHexPrefix_text _ _ _ Hp Hs).
  rewrite rev_involutive, string_of_list_ascii_of_string, Hp.
  pose proof (ParseUint_range _ _ Hp) as [_ Hmax]. apply Z.leb_le in Hmax.
  unfold tableKind, smallestOf, wideKinds, set_mValueKind, set_mValue.
  cbn [find holds mValue mFormatted mType mValueKind].
  destruct (existsb isL (list_ascii_of_string sfx)),
           (existsb isU (list_ascii_of_string sfx)),
           (isHexPrefix (list_ascii_of_string body));
    try (eexists; split; reflexivity);
    try (destruct (v <=? UINT32_MAX); eexists; split; reflexivity);
    try (destruct (v <=? INT32_MAX); eexists; split; reflexivity).
  destruct (v <=? INT32_MAX); [eexists; split; reflexivity|].
  destruct (v <=? UINT32_MAX); [eexists; split; reflexivity|].
  destruct (v <=? INT64_MAX); [eexists; split; reflexivity|].
  rewrite Hmax. eexists; split; reflexivity.
Qed.

(** The flags depend on which letters the suffix holds, not on their
    order. *)
Lemma existsb_Permutation {A} (f : A -> bool) (l l' : list A) :
  Permutation l l' -> existsb f l = existsb f l'.
Proof.
  induction 1; simpl; try congruence.
  destruct (f x), (f y); reflexivity.
Qed.

(** C4: a literal text made of digits that parse (decimal, or hexadecimal
    after [0x]/[0X]) to the 64-bit value [v], followed by any letters of the
    suffix alphabet, builds a Literal node of value [v] whose kind is the one
    the table of section 4.2 gives for the long flag, the unsigned flag, the
    hex flag and [v]; the same digits with the suffix letters in any other
    order build the same kind and value. *)
Theorem literal_kind_follows_table mem body sfx v :
  ParseUint body = Some v ->
  Forall suffixChar (list_ascii_of_string sfx) ->
  exists k,
    tableKind (existsb isL (list_ascii_of_string sfx))
              (existsb isU (list_ascii_of_string sfx))
              (isHexPrefix (list_ascii_of_string body)) v = Some k /\
    ConstantExpression_literal mem (body ++ sfx) kConstExprLiteral =
      Done (mkConstantExpression (body ++ sfx) kConstExprLiteral k v) /\
    forall sfx',
      Permutation (list_ascii_of_string sfx) (list_ascii_of_string sfx') ->
      ConstantExpression_literal mem (body ++ sfx') kConstExprLiteral =
        Done (mkConstantExpression (body ++ sfx') kConstExprLiteral k v).
Proof.
  intros Hp Hs.
  destruct (literal_parsed mem body sfx v kConstExprLiteral ltac:(discriminate) Hp Hs)
    as [k [Hk He]].
  exists k. split; [exact Hk|]. split; [exact He|].
  intros sfx' Hperm.
  assert (Hs' : Forall suffixChar (list_ascii_of_string sfx')).
  { rewrite Forall_forall in *. intros c Hc. apply Hs.
    eapply Permutation_in; [apply Permutation_sym; exact Hperm | exact Hc]. }
  destruct (literal_parsed mem body sfx' v kConstExprLiteral ltac:(discriminate) Hp Hs')
    as [k' [Hk' He']].
  rewrite <- (existsb_Permutation isL _ _ Hperm) in Hk'.
  rewrite <- (existsb_Permutation isU _ _ Hperm) in Hk'.
  rewrite Hk in Hk'. injection Hk' as <-. exact He'.
Qed.

Lemma literal_kind_follows_table_witness :
  exists k,
    tableKind (existsb isL (list_ascii_of_string "uL"))
              (existsb isU (list_ascii_of_string "uL"))
              (isHexPrefix (list_ascii_of_string "0x80000000")) 2147483648 = Some k /\
    ConstantExpression_literal (mkIndeterminate KIND_DOUBLE 7) ("0x80000000" ++ "uL")
      kConstExprLiteral =
      Done (mkConstantExpression ("0x80000000" ++ "uL") kConstExprLiteral k 2147483648) /\
    forall sfx',
      Permutation (list_ascii_of_string "uL") (list_ascii_of_string sfx') ->
      ConstantExpression_literal (mkIndeterminate KIND_DOUBLE 7) ("0x80000000" ++ sfx')
        kConstExprLiteral =
        Done (mkConstantExpression ("0x80000000" ++ sfx') kConstExprLiteral k 2147483648).
Proof.
  apply (literal_kind_follows_table (mkIndeterminate KIND_DOUBLE 7) "0x80000000" "uL"
           2147483648).
  - reflexivity.
  - repeat constructor.
Defined.

(** The examples of section 8 of the specification. *)
Example literal_examples :
  let kindOf s :=
    omap mValueKind
      (ConstantExpression_literal (mkIndeterminate KIND_DOUBLE 7) s kConstExprLiteral) in
  kindOf "10" = Done KIND_INT32 /\
  kindOf "10u" = Done KIND_UINT32 /\
  kindOf "10ul" = Done KIND_UINT64 /\
  kindOf "10lu" = Done KIND_UINT64 /\
  kindOf "10L" = Done KIND_INT64 /\
  kindOf "0xFFFFFFFF" = Done KIND_UINT32 /\
  kindOf "0x7FFFFFFF" = Done KIND_INT32 /\
  kindOf "0x80000000" = Done KIND_UINT32 /\
  kindOf "4294967295" = Done KIND_INT64 /\
  kindOf "0xFFFFFFFFFFFFFFFF" = Done KIND_UINT64.
Proof. repeat split. Qed.

(** C8: the suffix loop strips every trailing letter of [u U l L], however
    many there are and however often one repeats; the unsigned flag is set
    exactly when one of them is [u] or [U], the long flag when one is [l] or
    [L], and the remaining digits are parsed successfully. *)
Theorem literal_strips_every_suffix_letter mem body sfx v :
  ParseUint body = Some v ->
  Forall suffixChar (list_ascii_of_string sfx) ->
  stripSuffix (List.rev (list_ascii_of_string (body ++ sfx))) false false =
    (List.rev (list_ascii_of_string body),
     existsb isL (list_ascii_of_string sfx), existsb isU (list_ascii_of_string sfx)) /\
  exists e,
    ConstantExpression_literal mem (body ++ sfx) kConstExprLiteral = Done e /\
    mType e = kConstExprLiteral /\ mValue e = v.
Proof.
  intros Hp Hs. split; [exact (stripSuffix_text _ _ _ Hp Hs)|].
  destruct (literal_parsed mem body sfx v kConstExprLiteral ltac:(discriminate) Hp Hs)
    as [k [_ He]].
  eexists. split; [exact He|]. split; reflexivity.
Qed.

Lemma literal_strips_every_suffix_letter_witness :
  stripSuffix (List.rev (list_ascii_of_string ("10" ++ "uLuL"))) false false =
    (List.rev (list_ascii_of_string "10"), true, true) /\
  exists e,
    ConstantExpression_literal (mkIndeterminate KIND_DOUBLE 7) ("10" ++ "uLuL")
      kConstExprLiteral = Done e /\
    mType e = kConstExprLiteral /\ mValue e = 10.
Proof.
  apply (literal_strips_every_suffix_letter (mkIndeterminate KIND_DOUBLE 7) "10" "uLuL" 10).
  - reflexivity.
  - repeat constructor.
Defined.

(** The texts the claim names. *)
Example literal_repeated_suffixes :
  let lit s :=
    omap fields
      (ConstantExpression_literal (mkIndeterminate KIND_DOUBLE 7) s kConstExprLiteral) in
  lit "10uu" = Done (kConstExprLiteral, KIND_UINT32, 10) /\
  lit "10llu" = Done (kConstExprLiteral, KIND_UINT64, 10) /\
  lit "10uLuL" = Done (kConstExprLiteral, KIND_UINT64, 10) /\
  lit "10LLLL" = Done (kConstExprLiteral, KIND_INT64, 10).
Proof. repeat split. Qed.

(** ** Failure paths *)

(** When the digits do not parse, the constructor stops in [LOG(FATAL)];
    the two statements after it, which would turn the node into Unknown,
    are never run. *)
Lemma literal_unparsed_aborts mem value type :
  type <> kConstExprUnknown ->
  ParseUint (string_of_list_ascii
               (List.rev (fst (fst (stripSuffix (List.rev (list_ascii_of_string value))
                                      false false))))) = None ->
  ConstantExpression_literal mem value type = Abort.
Proof.
  intros Ht Hp. unfold ConstantExpression_literal.
  cbn [construct mType]. rewrite (isUnknown_false _ Ht).
  destruct (stripSuffix _ false false) as [[tail isLong] isUnsigned].
  cbn [fst] in Hp. now rewrite Hp.
Qed.

(** C2, evaluated on the code: a literal of 2^64, which the lexer accepts,
    does not parse as a 64-bit value, and the constructor aborts instead of
    returning an Unknown node. *)
Theorem literal_too_large_aborts :
  ParseUint "18446744073709551616" = None /\
  forall mem,
    ConstantExpression_literal mem "18446744073709551616" kConstExprLiteral = Abort.
Proof. split; [reflexivity | intros mem; reflexivity]. Qed.

(** An Unknown operand makes a unary node Unknown. *)
Lemma unary_unknown_child mem op x :
  mType x = kConstExprUnknown ->
  exists e, ConstantExpression_unary mem op x = Done e /\ mType e = kConstExprUnknown.
Proof.
  intros Hx. unfold ConstantExpression_unary. rewrite Hx. cbn [isUnknown].
  eexists; split; reflexivity.
Qed.

(** An Unknown operand on either side makes a binary node Unknown. *)
Lemma binary_unknown_child mem lval op rval :
  mType lval = kConstExprUnknown \/ mType rval = kConstExprUnknown ->
  exists e, ConstantExpression_binary mem lval op rval = Done e /\
            mType e = kConstExprUnknown.
Proof.
  intros H. unfold ConstantExpression_binary.
  assert (E : (isUnknown (mType lval) || isUnknown (mType rval))%bool = true).
  { destruct H as [-> | ->]; cbn [isUnknown]; [reflexivity | apply orb_true_r]. }
  rewrite E. eexists; split; reflexivity.
Qed.

(** C1, evaluated on the code: the ternary constructor has no test for
    Unknown children.  With an Unknown condition (an identifier) and two
    literals it returns a Ternary node of kind [int32_t] whose value is chosen
    by whatever the condition's unassigned [mValue] holds. *)
Theorem ternary_ignores_unknown_condition (mem mem' : Indeterminate) :
  exists cond e,
    ConstantExpression_literal mem' "FOO" kConstExprUnknown = Done cond /\
    mType cond = kConstExprUnknown /\
    ConstantExpression_ternary mem cond
      (mkConstantExpression "1" kConstExprLiteral KIND_INT32 1)
      (mkConstantExpression "2" kConstExprLiteral KIND_INT32 2) = Done e /\
    mType e = kConstExprTernary /\
    mValueKind e = KIND_INT32 /\
    mValue e = if castTo Tuint64 (anyValue mem') =? 0 then 2 else 1.
Proof.
  eexists; eexists. split; [reflexivity|]. split; [reflexivity|].
  split; [reflexivity|]. split; [reflexivity|]. split; [reflexivity|].
  cbn [mValue set_mValue construct].
  destruct (castTo Tuint64 (anyValue mem') =? 0); reflexivity.
Qed.

(** An Unknown true branch is not absorbed either: the kind is computed
    from the branch's unassigned [mValueKind]. *)
Example ternary_ignores_unknown_branch :
  omap fields
    (ConstantExpression_ternary (mkIndeterminate KIND_DOUBLE 7)
       (mkConstantExpression "1" kConstExprLiteral KIND_INT32 1)
       (mkConstantExpression "FOO" kConstExprUnknown KIND_UINT64 5)
       (mkConstantExpression "2" kConstExprLiteral KIND_INT32 2))
  = Done (kConstExprTernary, KIND_UINT64, 5).
Proof. reflexivity. Qed.

(** ** Rendering Unknown nodes *)

Lemma value0_unknown this castKind :
  mType this = kConstExprUnknown -> value0 this castKind = Done (expr this).
Proof. intros H. unfold value0. now rewrite H. Qed.

Lemma javaValue_unknown this castKind :
  mType this = kConstExprUnknown -> javaValue this castKind = Done (expr this).
Proof.
  intros H. unfold javaValue.
  destruct castKind; rewrite ?value0_unknown by exact H; try reflexivity.
  now rewrite H.
Qed.

(** C3, evaluated on the code: [cppValue] appends its literal suffixes to
    the text of an Unknown node. *)
Theorem cppValue_unknown_gets_suffix (mem : Indeterminate) :
  exists x,
    ConstantExpression_literal mem "FOO" kConstExprUnknown = Done x /\
    mType x = kConstExprUnknown /\
    expr x = "FOO" /\
    cppValue x KIND_UINT32 = Done "FOOu" /\
    cppValue x KIND_UINT64 = Done "FOOull" /\
    javaValue x KIND_UINT32 = Done "FOO".
Proof.
  eexists. split; [reflexivity|]. repeat split.
Qed.

(** ** Rendering and re-parsing *)

Lemma append_empty_r (s : string) : (s ++ "")%string = s.
Proof. induction s as [|c s IH]; simpl; [reflexivity | now rewrite IH]. Qed.

(** Digits already read as [acc], followed by the digits of [d]. *)
Lemma parseDigits_uint_acc d : forall acc,
  parseDigits 10 (Zpos acc) (list_ascii_of_string (NilEmpty.string_of_uint d)) =
  Some (Zpos (Pos.of_uint_acc d acc)).
Proof.
  induction d; intros acc; cbn [NilEmpty.string_of_uint list_ascii_of_string
                                  parseDigits Pos.of_uint_acc];
    try reflexivity; read_digit;
    match goal with
    | |- parseDigits 10 ?a _ = Some (Zpos (Pos.of_uint_acc _ ?p)) =>
        replace a with (Zpos p) by lia
    end; apply IHd.
Qed.

Lemma parseDigits_uint d :
  parseDigits 10 0 (list_ascii_of_string (NilEmpty.string_of_uint d)) =
  Some (Z.of_N (Pos.of_uint d)).
Proof.
  induction d; cbn [NilEmpty.string_of_uint list_ascii_of_string
                    parseDigits Pos.of_uint];
    try reflexivity; read_digit;
    [exact IHd | ..]; cbn [Z.mul Z.add Z.of_N]; apply parseDigits_uint_acc.
Qed.

Lemma isHexPrefix_uint d :
  isHexPrefix (list_ascii_of_string (NilEmpty.string_of_uint d)) = false.
Proof. destruct d as [|d|d|d|d|d|d|d|d|d|d]; try reflexivity; destruct d; reflexivity. Qed.

(** [ParseUint] reads back what [to_string] writes for a value that is not
    negative and fits 64 bits. *)
Lemma ParseUint_to_string w :
  0 <= w <= UINT64_MAX -> ParseUint (to_string w) = Some w.
Proof.
  intros [Hlo Hhi]. destruct w as [|p|p]; [reflexivity | | lia].
  unfold to_string, ParseUint. cbn [Z.to_int NilEmpty.string_of_int].
  rewrite isHexPrefix_uint, parseDigits_uint, DecimalPos.Unsigned.of_to.
  cbn [Z.of_N]. apply Z.leb_le in Hhi. rewrite Hhi.
  destruct (list_ascii_of_string (NilEmpty.string_of_uint (Pos.to_uint p))) eqn:E;
    [|reflexivity].
  exfalso. apply (DecimalPos.Unsigned.to_uint_nonnil p).
  destruct (Pos.to_uint p); simpl in E; try discriminate; reflexivity.
Qed.

(** *** Every node that is not Unknown is stored at its kind *)

Lemma storedAtKind_intro e k T s t z :
  SWITCH_KIND k = Some T ->
  e = mkConstantExpression s t k (castTo Tuint64 (castTo T z)) ->
  storedAtKind e.
Proof.
  intros HT ->. exists T. cbn [mValueKind mValue]. split; [exact HT|].
  now rewrite castTo_storage.
Qed.

Lemma retT_is_cast T z : exists y, retT T z = castTo T y.
Proof. unfold retT. eexists; reflexivity. Qed.

Lemma retT_b2z T b : retT T (b2z b) = b2z b.
Proof. destruct T, b; reflexivity. Qed.

Lemma handleUnary_is_cast T op v r :
  handleUnary T op v = Done r -> exists y, r = castTo T y.
Proof.
  unfold handleUnary.
  repeat match goal with |- context [if ?c then _ else _] => destruct c end;
    intros [= <-]; apply retT_is_cast.
Qed.

Lemma handleBinaryCommon_is_cast T l op r v :
  handleBinaryCommon T l op r = Done v -> exists y, v = castTo T y.
Proof.
  unfold handleBinaryCommon, nativeDivRem.
  repeat match goal with |- context [if ?c then _ else _] => destruct c end;
    intros [= <-]; apply retT_is_cast.
Qed.

Lemma handleBinaryCommon_comparison T l op r v :
  (OP_IS_BIN_ARITHMETIC op || OP_IS_BIN_BITFLIP op)%bool = false ->
  handleBinaryCommon T l op r = Done v -> exists b, v = b2z b.
Proof.
  unfold OP_IS_BIN_ARITHMETIC, OP_IS_BIN_BITFLIP, handleBinaryCommon.
  intros Hop.
  repeat match goal with
         | H : (_ || _)%bool = false |- _ => apply orb_false_iff in H; destruct H
         end.
  repeat match goal with H : OPEQ op _ = false |- _ => rewrite H; clear H end.
  repeat match goal with |- context [if ?c then _ else _] => destruct c end;
    intros [= <-]; rewrite retT_b2z; eexists; reflexivity.
Qed.

Lemma handleShift_is_cast T l op n v :
  handleShift T l op n = Done v -> exists y, v = castTo T y.
Proof.
  unfold handleShift, nativeShift.
  repeat match goal with |- context [if ?c then _ else _] => destruct c end;
    intros [= <-]; apply retT_is_cast.
Qed.

Lemma storedAtKind_bool s t b :
  storedAtKind (mkConstantExpression s t KIND_BOOL (b2z b)).
Proof. exists Tbool. split; [reflexivity|]. destruct b; reflexivity. Qed.

Lemma storedAtKind_bool_stored s t b :
  storedAtKind (mkConstantExpression s t KIND_BOOL (castTo Tuint64 (b2z b))).
Proof. exists Tbool. split; [reflexivity|]. destruct b; reflexivity. Qed.

Lemma literal_storedAtKind mem value type e :
  ConstantExpression_literal mem value type = Done e ->
  mType e <> kConstExprUnknown -> storedAtKind e.
Proof.
  unfold ConstantExpression_literal. cbn [construct mType].
  destruct (isUnknown type) eqn:Ht.
  { intros [= <-] H. apply isUnknown_true in Ht. contradiction. }
  destruct (stripSuffix _ false false) as [[tail isLong] isUnsigned].
  destruct (ParseUint _) as [v|] eqn:Hp; [|discriminate].
  apply ParseUint_range in Hp. unfold UINT64_MAX in Hp.
  unfold set_mValueKind, set_mValue; cbn [mValue mFormatted mType mValueKind].
  unfold UINT32_MAX, INT32_MAX, INT64_MAX, UINT64_MAX.
  intros [= <-] _.
  repeat match goal with
         | |- context [if ?c then _ else _] =>
             let E := fresh "E" in destruct c eqn:E
         end;
    repeat match goal with
           | H : (_ <=? _) = true |- _ => apply Z.leb_le in H
           | H : (_ <=? _) = false |- _ => apply Z.leb_gt in H
           end;
    try lia;
    eexists; (split; [reflexivity|]); cbn [mValue]; unfold_cast; modarith.
Qed.

Lemma unary_storedAtKind mem op x e :
  ConstantExpression_unary mem op x = Done e ->
  mType e <> kConstExprUnknown -> storedAtKind e.
Proof.
  unfold ConstantExpression_unary.
  destruct (isUnknown (mType x)); [intros [= <-] H; now contradiction H|].
  cbn [mValueKind set_mValueKind].
  destruct (SWITCH_KIND (mValueKind x)) as [T|] eqn:HT;
    [|intros [= <-] H; now contradiction H].
  destruct (handleUnary T op _) as [r| |] eqn:Hh; cbn [bind]; try discriminate.
  intros [= <-] _. destruct (handleUnary_is_cast _ _ _ _ Hh) as [y ->].
  eapply storedAtKind_intro; [exact HT | reflexivity].
Qed.

Lemma ternary_storedAtKind mem c t f e :
  ConstantExpression_ternary mem c t f = Done e ->
  mType e <> kConstExprUnknown -> storedAtKind e.
Proof.
  unfold ConstantExpression_ternary.
  destruct (usualArithmeticConversion _ _) as [k| |]; cbn [bind]; try discriminate.
  cbn [mValueKind set_mValueKind].
  destruct (SWITCH_KIND k) as [T|] eqn:HT;
    [|intros [= <-] H; now contradiction H].
  intros [= <-] _.
  destruct (negb (mValue c =? 0));
    (eapply storedAtKind_intro; [exact HT | reflexivity]).
Qed.

Lemma binary_storedAtKind mem l op r e :
  ConstantExpression_binary mem l op r = Done e ->
  mType e <> kConstExprUnknown -> storedAtKind e.
Proof.
  unfold ConstantExpression_binary.
  destruct (isUnknown (mType l) || isUnknown (mType r))%bool;
    [intros [= <-] H; now contradiction H|].
  destruct (OP_IS_BIN_ARITHMETIC op || OP_IS_BIN_BITFLIP op)%bool eqn:Harith;
    cbn [orb].
  - (* arithmetic, bitwise *)
    destruct (usualArithmeticConversion _ _) as [k| |]; cbn [bind]; try discriminate.
    destruct (SWITCH_KIND k) as [T|] eqn:HT;
      [|intros [= <-] H; now contradiction H].
    destruct (handleBinaryCommon T _ op _) as [v| |] eqn:Hh; cbn [bind]; try discriminate.
    intros [= <-] _. destruct (handleBinaryCommon_is_cast _ _ _ _ _ Hh) as [y ->].
    eapply storedAtKind_intro; [exact HT | reflexivity].
  - destruct (OP_IS_BIN_COMP op).
    + (* comparisons *)
      destruct (usualArithmeticConversion _ _) as [k| |]; cbn [bind]; try discriminate.
      destruct (SWITCH_KIND k) as [T|] eqn:HT;
        [|intros [= <-] H; now contradiction H].
      destruct (handleBinaryCommon T _ op _) as [v| |] eqn:Hh; cbn [bind]; try discriminate.
      intros [= <-] _.
      destruct (handleBinaryCommon_comparison _ _ _ _ _ Harith Hh) as [b ->].
      exact (storedAtKind_bool_stored _ _ b).
    + destruct (OP_IS_BIN_SHIFT op).
      * (* shifts *)
        destruct (cast Tint64 r) as [n| |]; cbn [bind]; try discriminate.
        destruct (if n <? 0 then _ else _) as [[op' n']| |]; cbn [bind]; try discriminate.
        cbn [mValueKind set_mValueKind].
        destruct (SWITCH_KIND (integralPromotion (mValueKind l))) as [T|] eqn:HT;
          [|intros [= <-] H; now contradiction H].
        destruct (handleShift T _ op' n') as [v| |] eqn:Hh; cbn [bind]; try discriminate.
        intros [= <-] _. destruct (handleShift_is_cast _ _ _ _ _ Hh) as [y ->].
        eapply storedAtKind_intro; [exact HT | reflexivity].
      * destruct (OP_IS_BIN_LOGICAL op); [|intros [= <-] H; now contradiction H].
        destruct (handleLogical _ op _) as [b| |]; cbn [bind]; try discriminate.
        intros [= <-] _. exact (storedAtKind_bool _ _ b).
Qed.

Lemma constructed_storedAtKind e :
  constructed e -> mType e <> kConstExprUnknown -> storedAtKind e.
Proof.
  intros [mem v t e' H | mem op x e' H | mem l op r e' H | mem c t f e' H].
  - exact (literal_storedAtKind _ _ _ _ H).
  - exact (unary_storedAtKind _ _ _ _ H).
  - exact (binary_storedAtKind _ _ _ _ _ H).
  - exact (ternary_storedAtKind _ _ _ _ _ H).
Qed.

Lemma castTo_le_uint64 T z : castTo T z <= UINT64_MAX.
Proof.
  unfold UINT64_MAX. destruct T; unfold_cast; try modarith.
  destruct (z =? 0); lia.
Qed.

(** *** The library parser *)

Lemma literal_with_ParseUint mem value type :
  ConstantExpression_literal mem value type =
  ConstantExpression_literal_with ParseUint mem value type.
Proof. reflexivity. Qed.













(** Unary minus on the literal [1] renders as [-1]; read back, [-1] is an
    [int64_t] literal that stores the same 64 bits.  The least [int64_t]
    goes round the same way. *)
Example round_trip_minus_one :
  value (mkConstantExpression "(-1)" kConstExprUnary KIND_INT32 18446744073709551615)
    = Done "-1" /\
  omap fields
    (ConstantExpression_literal_with strtoullParseUint (mkIndeterminate KIND_DOUBLE 7)
       "-1" kConstExprLiteral)
    = Done (kConstExprLiteral, KIND_INT64, 18446744073709551615) /\
  value (mkConstantExpression "(1l << 63)" kConstExprBinary KIND_INT64
           9223372036854775808)
    = Done "-9223372036854775808" /\
  omap mValue
    (ConstantExpression_literal_with strtoullParseUint (mkIndeterminate KIND_DOUBLE 7)
       "-9223372036854775808" kConstExprLiteral)
    = Done 9223372036854775808.
Proof. repeat split. Qed.

(** What the two readings of the library disagree on: a sign or leading
    white space is read by [strtoull] and is no unsigned integer for
    section 4.2. *)
Example parsers_on_signed_text :
  strtoullParseUint "-5" = Some 18446744073709551611 /\ ParseUint "-5" = None /\
  strtoullParseUint "+10" = Some 10 /\ ParseUint "+10" = None /\
  strtoullParseUint " 7" = Some 7 /\ ParseUint " 7" = None /\
  strtoullParseUint "-" = None /\ strtoullParseUint "12x" = None /\
  strtoullParseUint "-0x10" = None /\
  strtoullParseUint "18446744073709551616" = None /\
  strtoullParseUint "-18446744073709551616" = None.
Proof. repeat split. Qed.

(** The largest [uint64_t] value goes round: it renders with twenty digits
    and reads back as the same 64 bits. *)
Example round_trip_uint64_max :
  let e := mkConstantExpression "0xFFFFFFFFFFFFFFFF" kConstExprLiteral KIND_UINT64
             18446744073709551615 in
  value e = Done "18446744073709551615" /\
  omap mValue
    (ConstantExpression_literal (mkIndeterminate KIND_DOUBLE 7) "18446744073709551615"
       kConstExprLiteral) = Done 18446744073709551615.
Proof. split; reflexivity. Qed.

(** ** End-to-end examples of section 8 *)

Example end_to_end_1_plus_2 :
  omap fields
    (ConstantExpression_binary (mkIndeterminate KIND_DOUBLE 7)
       (mkConstantExpression "1" kConstExprLiteral KIND_INT32 1) "+"
       (mkConstantExpression "2" kConstExprLiteral KIND_INT32 2))
  = Done (kConstExprBinary, KIND_INT32, 3).
Proof. reflexivity. Qed.

Example end_to_end_1u_plus_2 :
  omap fields
    (ConstantExpression_binary (mkIndeterminate KIND_DOUBLE 7)
       (mkConstantExpression "1u" kConstExprLiteral KIND_UINT32 1) "+"
       (mkConstantExpression "2" kConstExprLiteral KIND_INT32 2))
  = Done (kConstExprBinary, KIND_UINT32, 3).
Proof. reflexivity. Qed.

Example end_to_end_ternary :
  omap fields
    (ConstantExpression_ternary (mkIndeterminate KIND_DOUBLE 7)
       (mkConstantExpression "(1 == 1)" kConstExprBinary KIND_BOOL 1)
       (mkConstantExpression "1" kConstExprLiteral KIND_INT32 1)
       (mkConstantExpression "2u" kConstExprLiteral KIND_UINT32 2))
  = Done (kConstExprTernary, KIND_UINT32, 1).
Proof. reflexivity. Qed.

(** [1l << 63] is the least [int64_t]; the native renderer writes it as a
    cast of an unsigned literal. *)
Example end_to_end_int64_min :
  bind
    (ConstantExpression_binary (mkIndeterminate KIND_DOUBLE 7)
       (mkConstantExpression "1l" kConstExprLiteral KIND_INT64 1) "<<"
       (mkConstantExpression "63" kConstExprLiteral KIND_INT32 63))
    (fun e => cppValue e KIND_INT64)
  = Done "(int64_t)(-9223372036854775808ull)".
Proof. reflexivity. Qed.

(* ===================================================================== *)
(** * Further properties of the code *)
(* ===================================================================== *)

(** ** Kind model *)

(** X1: [integralPromotion] is idempotent, never returns a kind ranked below
    [int32_t], and leaves every kind ranked above [int32_t] as it is. *)
Theorem integralPromotion_closure (k : Kind) :
  integralPromotion (integralPromotion k) = integralPromotion k /\
  kindValue KIND_INT32 <= kindValue (integralPromotion k) /\
  kindValue k <= kindValue (integralPromotion k) /\
  (kindValue KIND_INT32 < kindValue k -> integralPromotion k = k).
Proof. destruct k; repeat split; simpl; try lia; intros; reflexivity. Qed.

(** X2: [usualArithmeticConversion] is symmetric in its arguments for all
    twelve kinds, the aborting pairs included. *)
Theorem usualArithmeticConversion_symmetric (a b : Kind) :
  usualArithmeticConversion a b = usualArithmeticConversion b a.
Proof. destruct a, b; reflexivity. Qed.

(** X3: the [CHECK] of [usualArithmeticConversion] fails exactly when one of
    the arguments is opaque, float or double; on every other pair the
    function returns. *)
Theorem usualArithmeticConversion_aborts_iff (a b : Kind) :
  (usualArithmeticConversion a b = Abort <->
   arithmeticKind a = false \/ arithmeticKind b = false) /\
  usualArithmeticConversion a b <> Undefined.
Proof.
  split.
  - destruct a, b; simpl; split; intros H;
      try discriminate H; try (destruct H; discriminate); auto.
  - destruct a, b; discriminate.
Qed.

(** X4: on boolean and integer kinds [usualArithmeticConversion] is
    associative: converting three kinds pairwise gives the same kind in
    either grouping. *)
Theorem usualArithmeticConversion_associative (a b c : Kind) :
  arithmeticKind a = true -> arithmeticKind b = true -> arithmeticKind c = true ->
  (ab <- usualArithmeticConversion a b ;; usualArithmeticConversion ab c) =
  (bc <- usualArithmeticConversion b c ;; usualArithmeticConversion a bc).
Proof.
  intros Ha Hb Hc.
  destruct a; try discriminate Ha; destruct b; try discriminate Hb;
    destruct c; try discriminate Hc; reflexivity.
Qed.

Lemma usualArithmeticConversion_associative_witness :
  (ab <- usualArithmeticConversion KIND_UINT16 KIND_INT32 ;;
   usualArithmeticConversion ab KIND_UINT32) =
  (bc <- usualArithmeticConversion KIND_INT32 KIND_UINT32 ;;
   usualArithmeticConversion KIND_UINT16 bc).
Proof.
  apply (usualArithmeticConversion_associative KIND_UINT16 KIND_INT32 KIND_UINT32);
    reflexivity.
Defined.

(** X5: integral promotion commutes with the usual arithmetic conversion on
    boolean and integer kinds: promoting the converted kind is converting the
    promoted kinds. *)
Theorem integralPromotion_conversion_commute (a b : Kind) :
  arithmeticKind a = true -> arithmeticKind b = true ->
  omap integralPromotion (usualArithmeticConversion a b) =
  usualArithmeticConversion (integralPromotion a) (integralPromotion b).
Proof.
  intros Ha Hb.
  destruct a; try discriminate Ha; destruct b; try discriminate Hb; reflexivity.
Qed.

Lemma integralPromotion_conversion_commute_witness :
  omap integralPromotion (usualArithmeticConversion KIND_UINT8 KIND_BOOL) =
  usualArithmeticConversion (integralPromotion KIND_UINT8) (integralPromotion KIND_BOOL).
Proof.
  apply (integralPromotion_conversion_commute KIND_UINT8 KIND_BOOL); reflexivity.
Defined.

(** ** Unary nodes *)

(** The unary constructor on an operand of boolean or integer kind. *)
Lemma unary_scalar_case mem op x T :
  mType x <> kConstExprUnknown -> SWITCH_KIND (mValueKind x) = Some T ->
  ConstantExpression_unary mem op x =
  (v <- handleUnary T op (castTo T (mValue x)) ;;
   Done (mkConstantExpression ("(" ++ op ++ expr x ++ ")")%string kConstExprUnary
           (mValueKind x) (castTo Tuint64 v))).
Proof.
  intros Hx HT. unfold ConstantExpression_unary.
  rewrite (isUnknown_false _ Hx). cbn [mValueKind set_mValueKind]. rewrite HT.
  reflexivity.
Qed.

Lemma handleUnary_unsupported T op v :
  ~ In op unaryOps -> handleUnary T op v = Abort.
Proof.
  intros H. unfold handleUnary, OPEQ.
  repeat match goal with
         | |- context [String.eqb op ?s] =>
             destruct (String.eqb_spec op s) as [-> | _];
             [exfalso; apply H; simpl; tauto |]
         end.
  reflexivity.
Qed.

(** X6: an operator other than [+ - ! ~] aborts the unary constructor when
    the operand's kind is boolean or an integer; for any other kind the
    constructor returns an Unknown node before it looks at the operator. *)
Theorem unary_unsupported_operator mem op x :
  mType x <> kConstExprUnknown -> ~ In op unaryOps ->
  (arithmeticKind (mValueKind x) = true ->
   ConstantExpression_unary mem op x = Abort) /\
  (arithmeticKind (mValueKind x) = false ->
   exists e, ConstantExpression_unary mem op x = Done e /\
             mType e = kConstExprUnknown /\ mValueKind e = mValueKind x).
Proof.
  intros Hx Hop. split; intros Hk.
  - assert (HT : exists T, SWITCH_KIND (mValueKind x) = Some T)
      by (destruct (mValueKind x); try discriminate Hk; eexists; reflexivity).
    destruct HT as [T HT].
    rewrite (unary_scalar_case _ _ _ _ Hx HT), handleUnary_unsupported by exact Hop.
    reflexivity.
  - unfold ConstantExpression_unary. rewrite (isUnknown_false _ Hx).
    cbn [mValueKind set_mValueKind].
    assert (HT : SWITCH_KIND (mValueKind x) = None)
      by (destruct (mValueKind x); try discriminate Hk; reflexivity).
    rewrite HT. eexists. repeat split.
Qed.

Lemma unary_unsupported_operator_witness :
  ConstantExpression_unary (mkIndeterminate KIND_DOUBLE 7) "*"
    (mkConstantExpression "1" kConstExprLiteral KIND_INT32 1) = Abort.
Proof.
  apply (unary_unsupported_operator (mkIndeterminate KIND_DOUBLE 7) "*"
           (mkConstantExpression "1" kConstExprLiteral KIND_INT32 1)).
  - simpl. discriminate.
  - simpl. intros [H | [H | [H | [H | []]]]]; discriminate H.
  - reflexivity.
Defined.

Lemma castTo_opp_opp T z : T <> Tbool ->
  castTo T (- castTo T (castTo Tuint64 (castTo T (- castTo T z)))) = castTo T z.
Proof.
  intros HT. destruct T; try congruence; unfold_cast; modarith.
Qed.

Lemma castTo_lnot_lnot T z : T <> Tbool ->
  castTo T (Z.lnot (castTo T (castTo Tuint64 (castTo T (Z.lnot (castTo T z)))))) =
  castTo T z.
Proof.
  intros HT. unfold Z.lnot, Z.pred.
  destruct T; try congruence; unfold_cast; modarith.
Qed.

(** X7: on an operand of integer kind, applying unary [-] twice, or unary
    [~] twice, gives a node of the operand's kind that stores the operand's
    value as read at that kind.  (Negating the least value of a signed kind
    wraps to itself, as [retT] computes it.) *)
Theorem unary_twice_restores_value mem mem' op x T :
  mType x <> kConstExprUnknown ->
  SWITCH_KIND (mValueKind x) = Some T -> T <> Tbool ->
  op = "-" \/ op = "~" ->
  exists e e',
    ConstantExpression_unary mem op x = Done e /\
    ConstantExpression_unary mem' op e = Done e' /\
    mType e' = kConstExprUnary /\
    mValueKind e' = mValueKind x /\
    mValue e' = castTo Tuint64 (castTo T (mValue x)).
Proof.
  intros Hx HT Hb Hop.
  rewrite (unary_scalar_case mem op x T Hx HT).
  destruct Hop as [-> | ->];
    (change (handleUnary T "-" (castTo T (mValue x)))
       with (Done (retT T (- castTo T (mValue x)))) ||
     change (handleUnary T "~" (castTo T (mValue x)))
       with (Done (retT T (Z.lnot (castTo T (mValue x))))));
    cbn [bind]; eexists; eexists; (split; [reflexivity|]);
    (rewrite unary_scalar_case with (T := T);
     [| cbn [mType]; discriminate | cbn [mValueKind]; exact HT]);
    cbn [mValue];
    (change (handleUnary T "-" ?v) with (Done (retT T (- v))) ||
     change (handleUnary T "~" ?v) with (Done (retT T (Z.lnot v))));
    cbn [bind]; (split; [reflexivity|]); cbn [mType mValueKind mValue];
    (split; [reflexivity|]); (split; [reflexivity|]);
    rewrite !retT_integer by exact Hb; f_equal.
  - apply castTo_opp_opp; exact Hb.
  - apply castTo_lnot_lnot; exact Hb.
Qed.

Lemma unary_twice_restores_value_witness :
  exists e e',
    ConstantExpression_unary (mkIndeterminate KIND_DOUBLE 7) "-"
      (mkConstantExpression "5u" kConstExprLiteral KIND_UINT32 5) = Done e /\
    ConstantExpression_unary (mkIndeterminate KIND_FLOAT 9) "-" e = Done e' /\
    mType e' = kConstExprUnary /\
    mValueKind e' = KIND_UINT32 /\
    mValue e' = castTo Tuint64 (castTo Tuint32 5).
Proof.
  apply (unary_twice_restores_value (mkIndeterminate KIND_DOUBLE 7)
           (mkIndeterminate KIND_FLOAT 9) "-"
           (mkConstantExpression "5u" kConstExprLiteral KIND_UINT32 5) Tuint32).
  - simpl. discriminate.
  - reflexivity.
  - discriminate.
  - left. reflexivity.
Defined.

(** ** Binary nodes, continued *)

(** X8: an operator token that belongs to none of the five operator groups
    does not abort the binary constructor: the node becomes Unknown and
    keeps the reconstructed text. *)
Theorem binary_unrecognised_operator mem lval op rval :
  mType lval <> kConstExprUnknown -> mType rval <> kConstExprUnknown ->
  (OP_IS_BIN_ARITHMETIC op || OP_IS_BIN_BITFLIP op || OP_IS_BIN_COMP op
   || OP_IS_BIN_SHIFT op || OP_IS_BIN_LOGICAL op)%bool = false ->
  exists e,
    ConstantExpression_binary mem lval op rval = Done e /\
    mType e = kConstExprUnknown /\
    expr e = ("(" ++ expr lval ++ " " ++ op ++ " " ++ expr rval ++ ")")%string.
Proof.
  intros Hl Hr Hop.
  repeat match goal with
         | H : (_ || _)%bool = false |- _ => apply orb_false_iff in H; destruct H
         end.
  unfold ConstantExpression_binary.
  rewrite (isUnknown_false _ Hl), (isUnknown_false _ Hr).
  repeat match goal with H : _ = false |- _ => rewrite H; clear H end.
  cbn [orb]. eexists. repeat split.
Qed.

Lemma binary_unrecognised_operator_witness :
  exists e,
    ConstantExpression_binary (mkIndeterminate KIND_DOUBLE 7)
      (mkConstantExpression "1" kConstExprLiteral KIND_INT32 1) "**"
      (mkConstantExpression "2" kConstExprLiteral KIND_INT32 2) = Done e /\
    mType e = kConstExprUnknown /\
    expr e = "(1 ** 2)".
Proof.
  apply (binary_unrecognised_operator (mkIndeterminate KIND_DOUBLE 7)
           (mkConstantExpression "1" kConstExprLiteral KIND_INT32 1) "**"
           (mkConstantExpression "2" kConstExprLiteral KIND_INT32 2)).
  - simpl. discriminate.
  - simpl. discriminate.
  - reflexivity.
Defined.

Lemma handleBinaryCommon_compares T l op r :
  OP_IS_BIN_COMP op = true ->
  handleBinaryCommon T l op r = Done (b2z (applyComparison op l r)).
Proof.
  intros Hop. split_ops Hop;
    cbv [handleBinaryCommon applyComparison OPEQ String.eqb Ascii.eqb Bool.eqb];
    now rewrite retT_b2z.
Qed.

Lemma comparison_not_arithmetic op :
  OP_IS_BIN_COMP op = true ->
  (OP_IS_BIN_ARITHMETIC op || OP_IS_BIN_BITFLIP op)%bool = false.
Proof. intros Hop. split_ops Hop; reflexivity. Qed.

(** X9: a comparison of two nodes of boolean or integer kind is a Binary
    node of kind boolean whose value is 1 or 0: the result of comparing the
    two stored values after both are converted to the common kind (integral
    promotion of each side, then the usual arithmetic conversion). *)
Theorem comparison_at_common_kind mem lval op rval :
  mType lval <> kConstExprUnknown -> mType rval <> kConstExprUnknown ->
  arithmeticKind (mValueKind lval) = true ->
  arithmeticKind (mValueKind rval) = true ->
  OP_IS_BIN_COMP op = true ->
  exists k T e,
    usualArithmeticConversion (integralPromotion (mValueKind lval))
                              (integralPromotion (mValueKind rval)) = Done k /\
    SWITCH_KIND k = Some T /\
    ConstantExpression_binary mem lval op rval = Done e /\
    mType e = kConstExprBinary /\
    mValueKind e = KIND_BOOL /\
    mValue e = b2z (applyComparison op (castTo T (mValue lval)) (castTo T (mValue rval))).
Proof.
  intros Hl Hr Kl Kr Hop.
  apply isUnknown_false in Hl. apply isUnknown_false in Hr.
  pose proof (integralPromotion_arithmetic _ Kl) as Pl.
  pose proof (integralPromotion_arithmetic _ Kr) as Pr.
  destruct (usualArithmeticConversion_wide _ _ Pl Pr) as [k [Hk Hw]].
  destruct (wideKinds_switch _ Hw) as [T HT].
  exists k, T.
  rewrite binary_common_case by (auto; rewrite Hop; apply orb_true_r).
  cbn zeta. rewrite Hk. cbn [bind]. rewrite HT.
  rewrite (handleBinaryCommon_compares _ _ _ _ Hop).
  rewrite (comparison_not_arithmetic _ Hop). cbn [bind].
  eexists. split; [reflexivity|]. split; [reflexivity|]. split; [reflexivity|].
  cbn [mType mValueKind mValue set_mValue set_mValueKind construct].
  repeat split. destruct (applyComparison _ _ _); reflexivity.
Qed.

Lemma comparison_at_common_kind_witness :
  exists k T e,
    usualArithmeticConversion (integralPromotion KIND_INT32)
                              (integralPromotion KIND_UINT32) = Done k /\
    SWITCH_KIND k = Some T /\
    ConstantExpression_binary (mkIndeterminate KIND_DOUBLE 7)
      (mkConstantExpression "(-1)" kConstExprUnary KIND_INT32 18446744073709551615) "<"
      (mkConstantExpression "1u" kConstExprLiteral KIND_UINT32 1) = Done e /\
    mType e = kConstExprBinary /\
    mValueKind e = KIND_BOOL /\
    mValue e = b2z (applyComparison "<" (castTo T 18446744073709551615) (castTo T 1)).
Proof.
  apply (comparison_at_common_kind (mkIndeterminate KIND_DOUBLE 7)
           (mkConstantExpression "(-1)" kConstExprUnary KIND_INT32 18446744073709551615)
           "<" (mkConstantExpression "1u" kConstExprLiteral KIND_UINT32 1)).
  - simpl. discriminate.
  - simpl. discriminate.
  - reflexivity.
  - reflexivity.
  - reflexivity.
Defined.

(** [-1 < 1u] is false: both sides are compared as [uint32_t]. *)
Example minus_one_not_below_1u :
  omap fields
    (ConstantExpression_binary (mkIndeterminate KIND_DOUBLE 7)
       (mkConstantExpression "(-1)" kConstExprUnary KIND_INT32 18446744073709551615) "<"
       (mkConstantExpression "1u" kConstExprLiteral KIND_UINT32 1))
  = Done (kConstExprBinary, KIND_BOOL, 0).
Proof. reflexivity. Qed.

(** X10: [&&] and [||] accept operands of every kind, the kinds that are
    neither boolean nor integer included: the node is Binary, of kind
    boolean, and its value combines whether each stored 64-bit value is
    non-zero. *)
Theorem logical_reads_raw_storage mem lval rval :
  mType lval <> kConstExprUnknown -> mType rval <> kConstExprUnknown ->
  (exists e, ConstantExpression_binary mem lval "&&" rval = Done e /\
     mType e = kConstExprBinary /\ mValueKind e = KIND_BOOL /\
     mValue e = b2z (negb (mValue lval =? 0) && negb (mValue rval =? 0))) /\
  (exists e, ConstantExpression_binary mem lval "||" rval = Done e /\
     mType e = kConstExprBinary /\ mValueKind e = KIND_BOOL /\
     mValue e = b2z (negb (mValue lval =? 0) || negb (mValue rval =? 0))).
Proof.
  intros Hl Hr. unfold ConstantExpression_binary.
  rewrite (isUnknown_false _ Hl), (isUnknown_false _ Hr).
  split; eexists; (split; [reflexivity|]); repeat split.
Qed.

Lemma logical_reads_raw_storage_witness :
  exists e,
    ConstantExpression_binary (mkIndeterminate KIND_DOUBLE 7)
      (mkConstantExpression "p" kConstExprLiteral KIND_OPAQUE 4096) "&&"
      (mkConstantExpression "0" kConstExprLiteral KIND_INT32 0) = Done e /\
    mType e = kConstExprBinary /\ mValueKind e = KIND_BOOL /\
    mValue e = b2z (negb (4096 =? 0) && negb (0 =? 0)).
Proof.
  apply (logical_reads_raw_storage (mkIndeterminate KIND_DOUBLE 7)
           (mkConstantExpression "p" kConstExprLiteral KIND_OPAQUE 4096)
           (mkConstantExpression "0" kConstExprLiteral KIND_INT32 0)).
  - simpl. discriminate.
  - simpl. discriminate.
Defined.

Lemma handleBinaryCommon_symmetric T a op b :
  In op symmetricOps ->
  handleBinaryCommon T a op b = handleBinaryCommon T b op a.
Proof.
  simpl. intros H.
  repeat match type of H with _ \/ _ => destruct H as [<- | H] end;
    try contradiction;
    cbv [handleBinaryCommon OPEQ String.eqb Ascii.eqb Bool.eqb];
    rewrite ?(Z.add_comm a b), ?(Z.mul_comm a b), ?(Z.lor_comm a b),
      ?(Z.lxor_comm a b), ?(Z.land_comm a b), ?(Z.eqb_sym a b); reflexivity.
Qed.

Lemma symmetricOps_common op :
  In op symmetricOps ->
  (OP_IS_BIN_ARITHMETIC op || OP_IS_BIN_BITFLIP op || OP_IS_BIN_COMP op)%bool = true.
Proof.
  simpl. intros H.
  repeat match type of H with _ \/ _ => destruct H as [<- | H] end;
    try contradiction; reflexivity.
Qed.

(** X11: for [+ * | ^ & == !=] the two operands may be exchanged: both
    orders give the same type tag, kind and stored value (or end the same
    way); only the reconstructed text differs. *)
Theorem binary_operands_exchange mem lval op rval :
  In op symmetricOps ->
  omap fields (ConstantExpression_binary mem lval op rval) =
  omap fields (ConstantExpression_binary mem rval op lval).
Proof.
  intros Hop. pose proof (symmetricOps_common _ Hop) as Hc.
  destruct (isUnknown (mType lval)) eqn:Ul; [|destruct (isUnknown (mType rval)) eqn:Ur].
  - unfold ConstantExpression_binary. rewrite Ul, orb_true_r. reflexivity.
  - unfold ConstantExpression_binary. rewrite Ur, orb_true_r. reflexivity.
  - rewrite !binary_common_case by auto. cbn zeta.
    rewrite (usualArithmeticConversion_commutative
               (integralPromotion (mValueKind rval))).
    destruct (usualArithmeticConversion _ _) as [k| |]; cbn [bind]; try reflexivity.
    destruct (SWITCH_KIND k) as [T|]; [|reflexivity].
    rewrite (handleBinaryCommon_symmetric T _ op _ Hop).
    destruct (handleBinaryCommon T _ op _); reflexivity.
Qed.

Lemma binary_operands_exchange_witness :
  omap fields
    (ConstantExpression_binary (mkIndeterminate KIND_DOUBLE 7)
       (mkConstantExpression "3u" kConstExprLiteral KIND_UINT32 3) "*"
       (mkConstantExpression "5l" kConstExprLiteral KIND_INT64 5)) =
  omap fields
    (ConstantExpression_binary (mkIndeterminate KIND_DOUBLE 7)
       (mkConstantExpression "5l" kConstExprLiteral KIND_INT64 5) "*"
       (mkConstantExpression "3u" kConstExprLiteral KIND_UINT32 3)).
Proof.
  apply (binary_operands_exchange (mkIndeterminate KIND_DOUBLE 7)
           (mkConstantExpression "3u" kConstExprLiteral KIND_UINT32 3) "*"
           (mkConstantExpression "5l" kConstExprLiteral KIND_INT64 5)).
  simpl. tauto.
Defined.

(** X12: an arithmetic, bitwise or comparison operator on an operand of
    kind float or double aborts in the [CHECK] of
    [usualArithmeticConversion]; an operand of kind opaque does not: it is
    promoted to [int32_t] like a narrow integer. *)
Theorem binary_on_non_integer_kind mem lval op rval :
  mType lval <> kConstExprUnknown -> mType rval <> kConstExprUnknown ->
  (OP_IS_BIN_ARITHMETIC op || OP_IS_BIN_BITFLIP op || OP_IS_BIN_COMP op)%bool = true ->
  (kindValue KIND_UINT64 < kindValue (mValueKind lval) \/
   kindValue KIND_UINT64 < kindValue (mValueKind rval) ->
   ConstantExpression_binary mem lval op rval = Abort) /\
  (mValueKind lval = KIND_OPAQUE ->
   ConstantExpression_binary mem lval op rval =
   ConstantExpression_binary mem
     (mkConstantExpression (mFormatted lval) (mType lval) KIND_INT32 (mValue lval))
     op rval).
Proof.
  intros Hl Hr Hop.
  pose proof (isUnknown_false _ Hl) as Ul. pose proof (isUnknown_false _ Hr) as Ur.
  split.
  - intros Hk. rewrite binary_common_case by auto. cbn zeta.
    assert (E : usualArithmeticConversion (integralPromotion (mValueKind lval))
                  (integralPromotion (mValueKind rval)) = Abort).
    { destruct Hk as [Hk | Hk].
      - destruct (mValueKind lval); simpl in Hk; try lia;
          destruct (mValueKind rval); reflexivity.
      - destruct (mValueKind rval); simpl in Hk; try lia;
          destruct (mValueKind lval); reflexivity. }
    rewrite E. reflexivity.
  - intros Hk. rewrite !binary_common_case by auto. cbn zeta.
    cbn [mValueKind mValue expr mFormatted]. rewrite Hk. reflexivity.
Qed.

Lemma binary_on_non_integer_kind_witness :
  ConstantExpression_binary (mkIndeterminate KIND_DOUBLE 7)
    (mkConstantExpression "1" kConstExprLiteral KIND_INT32 1) "+"
    (mkConstantExpression "f" kConstExprLiteral KIND_FLOAT 2) = Abort.
Proof.
  refine (proj1 (binary_on_non_integer_kind (mkIndeterminate KIND_DOUBLE 7)
                   (mkConstantExpression "1" kConstExprLiteral KIND_INT32 1) "+"
                   (mkConstantExpression "f" kConstExprLiteral KIND_FLOAT 2)
                   _ _ _) _).
  - simpl. discriminate.
  - simpl. discriminate.
  - reflexivity.
  - right. simpl. lia.
Defined.

(** ** Literals, continued *)

Lemma literal_fields mem value type e :
  ConstantExpression_literal mem value type = Done e ->
  mType e <> kConstExprUnknown ->
  expr e = value /\ mType e = type /\
  In (mValueKind e) wideKinds /\
  0 <= mValue e <= UINT64_MAX /\
  (mValueKind e = KIND_INT32 -> mValue e <= INT32_MAX) /\
  (mValueKind e = KIND_UINT32 -> mValue e <= UINT32_MAX).
Proof.
  unfold ConstantExpression_literal. cbn [construct mType].
  destruct (isUnknown type) eqn:Ht.
  { intros [= <-] H. apply isUnknown_true in Ht. contradiction. }
  destruct (stripSuffix _ false false) as [[tail isLong] isUnsigned].
  destruct (ParseUint _) as [v|] eqn:Hp; [|discriminate].
  apply ParseUint_range in Hp.
  unfold set_mValueKind, set_mValue; cbn [mValue mFormatted mType mValueKind].
  intros [= <-] _.
  repeat match goal with
         | |- context [if ?c then _ else _] =>
             let E := fresh "E" in destruct c eqn:E
         end;
    repeat match goal with
           | H : (_ <=? _) = true |- _ => apply Z.leb_le in H
           | H : (_ <=? _) = false |- _ => apply Z.leb_gt in H
           end;
    try lia;
    cbn [expr mFormatted mType mValueKind mValue wideKinds In];
    repeat split; try tauto; try lia; try discriminate; auto.
Qed.

(** X13: a literal node that the constructor returns keeps its text and
    type tag, has one of the four kinds of at least 32 bits and a value that
    fits 64 bits; a 32-bit kind is given only to a value within that kind's
    range. *)
Theorem literal_node_invariant mem value type e :
  ConstantExpression_literal mem value type = Done e ->
  mType e <> kConstExprUnknown ->
  expr e = value /\ mType e = type /\
  In (mValueKind e) wideKinds /\
  0 <= mValue e <= UINT64_MAX /\
  (mValueKind e = KIND_INT32 -> mValue e <= INT32_MAX) /\
  (mValueKind e = KIND_UINT32 -> mValue e <= UINT32_MAX).
Proof. exact (literal_fields mem value type e). Qed.

Lemma literal_node_invariant_witness :
  expr (mkConstantExpression "0x80000000" kConstExprLiteral KIND_UINT32 2147483648)
    = "0x80000000" /\
  mType (mkConstantExpression "0x80000000" kConstExprLiteral KIND_UINT32 2147483648)
    = kConstExprLiteral /\
  In KIND_UINT32 wideKinds /\
  0 <= 2147483648 <= UINT64_MAX /\
  (KIND_UINT32 = KIND_INT32 -> 2147483648 <= INT32_MAX) /\
  (KIND_UINT32 = KIND_UINT32 -> 2147483648 <= UINT32_MAX).
Proof.
  apply (literal_node_invariant (mkIndeterminate KIND_DOUBLE 7) "0x80000000"
           kConstExprLiteral
           (mkConstantExpression "0x80000000" kConstExprLiteral KIND_UINT32 2147483648)).
  - reflexivity.
  - simpl. discriminate.
Defined.

(** X14: a text without digits (empty, or made of suffix letters only)
    aborts the literal constructor: the suffix loop consumes all of it and
    the empty remainder does not parse. *)
Theorem literal_without_digits_aborts mem sfx type :
  type <> kConstExprUnknown ->
  Forall suffixChar (list_ascii_of_string sfx) ->
  ConstantExpression_literal mem sfx type = Abort.
Proof.
  intros Ht Hs. apply literal_unparsed_aborts; [exact Ht|].
  rewrite <- (app_nil_r (List.rev (list_ascii_of_string sfx))).
  rewrite stripSuffix_run by (apply Forall_rev; exact Hs).
  reflexivity.
Qed.

Lemma literal_without_digits_aborts_witness :
  ConstantExpression_literal (mkIndeterminate KIND_DOUBLE 7) "ul" kConstExprLiteral
  = Abort.
Proof.
  apply (literal_without_digits_aborts (mkIndeterminate KIND_DOUBLE 7) "ul"
           kConstExprLiteral).
  - discriminate.
  - repeat constructor.
Defined.

(** X15: digits without suffix whose value is above [INT64_MAX]: a decimal
    text becomes an [int64_t] node that keeps the 64 bits and therefore
    renders as the negative number [v - 2^64]; a hexadecimal text becomes a
    [uint64_t] node that renders as [v]. *)
Theorem unsuffixed_literal_above_int64_max mem body v :
  ParseUint body = Some v -> INT64_MAX < v ->
  exists e,
    ConstantExpression_literal mem body kConstExprLiteral = Done e /\
    mValue e = v /\
    (isHexPrefix (list_ascii_of_string body) = false ->
     mValueKind e = KIND_INT64 /\
     value e = Done (to_string (v - 18446744073709551616))) /\
    (isHexPrefix (list_ascii_of_string body) = true ->
     mValueKind e = KIND_UINT64 /\ value e = Done (to_string v)).
Proof.
  intros Hp Hv.
  pose proof (ParseUint_range _ _ Hp) as Hr.
  destruct (literal_parsed mem body "" v kConstExprLiteral
              ltac:(discriminate) Hp ltac:(constructor)) as [k [Hk He]].
  rewrite append_empty_r in He. rewrite He.
  eexists. split; [reflexivity|]. split; [reflexivity|].
  unfold INT64_MAX, UINT64_MAX in *.
  cbn [list_ascii_of_string existsb] in Hk. unfold tableKind in Hk.
  split; intros Hh; rewrite Hh in Hk.
  - assert (E : (v <=? INT32_MAX) = false) by (apply Z.leb_gt; unfold INT32_MAX; lia).
    rewrite E in Hk. injection Hk as <-. split; [reflexivity|].
    unfold value, value0, cast. cbn [mType isUnknown mValueKind SWITCH_KIND mValue bind].
    do 2 f_equal. unfold_cast. modarith.
  - unfold smallestOf, wideKinds in Hk. cbn [find holds] in Hk.
    assert (E1 : (v <=? INT32_MAX) = false) by (apply Z.leb_gt; unfold INT32_MAX; lia).
    assert (E2 : (v <=? UINT32_MAX) = false) by (apply Z.leb_gt; unfold UINT32_MAX; lia).
    assert (E3 : (v <=? INT64_MAX) = false) by (apply Z.leb_gt; unfold INT64_MAX; lia).
    assert (E4 : (v <=? UINT64_MAX) = true) by (apply Z.leb_le; unfold UINT64_MAX; lia).
    rewrite E1, E2, E3, E4 in Hk. injection Hk as <-. split; [reflexivity|].
    unfold value, value0, cast. cbn [mType isUnknown mValueKind SWITCH_KIND mValue bind].
    do 2 f_equal. unfold_cast. modarith.
Qed.

Lemma unsuffixed_literal_above_int64_max_witness :
  exists e,
    ConstantExpression_literal (mkIndeterminate KIND_DOUBLE 7) "9223372036854775808"
      kConstExprLiteral = Done e /\
    mValue e = 9223372036854775808 /\
    (isHexPrefix (list_ascii_of_string "9223372036854775808") = false ->
     mValueKind e = KIND_INT64 /\
     value e = Done (to_string (9223372036854775808 - 18446744073709551616))) /\
    (isHexPrefix (list_ascii_of_string "9223372036854775808") = true ->
     mValueKind e = KIND_UINT64 /\ value e = Done (to_string 9223372036854775808)).
Proof.
  apply (unsuffixed_literal_above_int64_max (mkIndeterminate KIND_DOUBLE 7)
           "9223372036854775808" 9223372036854775808).
  - reflexivity.
  - reflexivity.
Defined.

(** The decimal text of 2^63 renders as the least [int64_t]. *)
Example literal_2_pow_63_reads_negative :
  bind (ConstantExpression_literal (mkIndeterminate KIND_DOUBLE 7) "9223372036854775808"
          kConstExprLiteral) value
  = Done "-9223372036854775808".
Proof. reflexivity. Qed.

(** ** Ternary nodes *)

(** X16: when both branches have the same boolean or integer kind and are
    stored at it, the ternary node has that kind, unpromoted, and stores the
    value of the branch that the condition's raw 64-bit value selects. *)
Theorem ternary_selects_branch mem cond trueVal falseVal :
  storedAtKind trueVal -> storedAtKind falseVal ->
  mValueKind falseVal = mValueKind trueVal ->
  exists e,
    ConstantExpression_ternary mem cond trueVal falseVal = Done e /\
    mType e = kConstExprTernary /\
    mValueKind e = mValueKind trueVal /\
    mValue e = if mValue cond =? 0 then mValue falseVal else mValue trueVal.
Proof.
  intros [T [HT St]] [T' [HT' Sf]] Hk.
  rewrite Hk in HT'. rewrite HT in HT'. injection HT' as <-.
  unfold ConstantExpression_ternary. rewrite Hk.
  assert (E : usualArithmeticConversion (mValueKind trueVal) (mValueKind trueVal)
              = Done (mValueKind trueVal))
    by (destruct (mValueKind trueVal); try discriminate HT; reflexivity).
  rewrite E. cbn [bind mValueKind set_mValueKind]. rewrite HT.
  eexists. split; [reflexivity|].
  cbn [mType mValueKind mValue set_mValue set_mValueKind construct].
  repeat split. destruct (mValue cond =? 0); cbn [negb]; assumption.
Qed.

Lemma ternary_selects_branch_witness :
  exists e,
    ConstantExpression_ternary (mkIndeterminate KIND_DOUBLE 7)
      (mkConstantExpression "0" kConstExprLiteral KIND_INT32 0)
      (mkConstantExpression "(1 < 2)" kConstExprBinary KIND_BOOL 1)
      (mkConstantExpression "(2 < 1)" kConstExprBinary KIND_BOOL 0) = Done e /\
    mType e = kConstExprTernary /\
    mValueKind e = KIND_BOOL /\
    mValue e = if 0 =? 0 then 0 else 1.
Proof.
  apply (ternary_selects_branch (mkIndeterminate KIND_DOUBLE 7)
           (mkConstantExpression "0" kConstExprLiteral KIND_INT32 0)
           (mkConstantExpression "(1 < 2)" kConstExprBinary KIND_BOOL 1)
           (mkConstantExpression "(2 < 1)" kConstExprBinary KIND_BOOL 0)).
  - exists Tbool. split; reflexivity.
  - exists Tbool. split; reflexivity.
  - reflexivity.
Defined.

(** ** Unknown nodes *)

(** X17: an Unknown operand makes the unary and the binary constructor
    return an Unknown node, on either side and for every operator token, the
    unsupported ones included: the operator is never looked at. *)
Theorem unknown_operand_absorbs mem op x y :
  mType x = kConstExprUnknown ->
  (exists e, ConstantExpression_unary mem op x = Done e /\
             mType e = kConstExprUnknown) /\
  (exists e, ConstantExpression_binary mem x op y = Done e /\
             mType e = kConstExprUnknown) /\
  (exists e, ConstantExpression_binary mem y op x = Done e /\
             mType e = kConstExprUnknown).
Proof.
  intros Hx. split; [|split].
  - apply unary_unknown_child; exact Hx.
  - apply binary_unknown_child; left; exact Hx.
  - apply binary_unknown_child; right; exact Hx.
Qed.

Lemma unknown_operand_absorbs_witness :
  exists e,
    ConstantExpression_binary (mkIndeterminate KIND_DOUBLE 7)
      (mkConstantExpression "1" kConstExprLiteral KIND_INT32 1) "**"
      (mkConstantExpression "FOO" kConstExprUnknown KIND_FLOAT 3) = Done e /\
    mType e = kConstExprUnknown.
Proof.
  refine (proj2 (proj2 (unknown_operand_absorbs (mkIndeterminate KIND_DOUBLE 7) "**"
                          (mkConstantExpression "FOO" kConstExprUnknown KIND_FLOAT 3)
                          (mkConstantExpression "1" kConstExprLiteral KIND_INT32 1) _))).
  reflexivity.
Defined.

(** X18: [value0], [value], [javaValue] and [description] return the
    reconstructed text of an Unknown node, whatever kind is asked for and
    whatever the node's unassigned members hold; none of them aborts. *)
Theorem unknown_renders_as_text this castKind :
  mType this = kConstExprUnknown ->
  value0 this castKind = Done (expr this) /\
  value this = Done (expr this) /\
  javaValue this castKind = Done (expr this) /\
  description this = expr this.
Proof.
  intros H. split; [|split; [|split]].
  - apply value0_unknown; exact H.
  - apply value0_unknown; exact H.
  - apply javaValue_unknown; exact H.
  - unfold description. now rewrite H.
Qed.

Lemma unknown_renders_as_text_witness :
  value0 (mkConstantExpression "FOO" kConstExprUnknown KIND_FLOAT 3) KIND_UINT64
    = Done "FOO" /\
  value (mkConstantExpression "FOO" kConstExprUnknown KIND_FLOAT 3) = Done "FOO" /\
  javaValue (mkConstantExpression "FOO" kConstExprUnknown KIND_FLOAT 3) KIND_UINT64
    = Done "FOO" /\
  description (mkConstantExpression "FOO" kConstExprUnknown KIND_FLOAT 3) = "FOO".
Proof.
  apply (unknown_renders_as_text
           (mkConstantExpression "FOO" kConstExprUnknown KIND_FLOAT 3) KIND_UINT64).
  reflexivity.
Defined.

(** ** Trees that evaluated *)

Lemma wideKinds_resultKinds k : In k wideKinds -> In k resultKinds.
Proof. unfold wideKinds, resultKinds. simpl. tauto. Qed.

Lemma resultKinds_arithmetic k : In k resultKinds -> arithmeticKind k = true.
Proof.
  unfold resultKinds. simpl. intros H.
  repeat match type of H with _ \/ _ => destruct H as [<- | H] end;
    try contradiction; reflexivity.
Qed.

Lemma usualArithmeticConversion_resultKinds a b k :
  In a resultKinds -> In b resultKinds ->
  usualArithmeticConversion a b = Done k -> In k resultKinds.
Proof.
  unfold resultKinds. simpl. intros Ha Hb.
  repeat match type of Ha with _ \/ _ => destruct Ha as [<- | Ha] end;
    try contradiction;
    repeat match type of Hb with _ \/ _ => destruct Hb as [<- | Hb] end;
    try contradiction; intros [= <-]; tauto.
Qed.

Lemma binary_kind_resultKinds mem l op r e :
  In (mValueKind l) resultKinds -> In (mValueKind r) resultKinds ->
  ConstantExpression_binary mem l op r = Done e ->
  mType e <> kConstExprUnknown -> In (mValueKind e) resultKinds.
Proof.
  intros Kl Kr.
  pose proof (integralPromotion_arithmetic _ (resultKinds_arithmetic _ Kl)) as Pl.
  pose proof (integralPromotion_arithmetic _ (resultKinds_arithmetic _ Kr)) as Pr.
  unfold ConstantExpression_binary.
  destruct (isUnknown (mType l) || isUnknown (mType r))%bool;
    [intros [= <-] H; now contradiction H|].
  destruct (usualArithmeticConversion_wide _ _ Pl Pr) as [k [Hk Hw]].
  destruct (wideKinds_switch _ Hw) as [T HT].
  destruct (wideKinds_switch _ Pl) as [Tl HTl].
  destruct (OP_IS_BIN_ARITHMETIC op || OP_IS_BIN_BITFLIP op)%bool; cbn [orb].
  - rewrite Hk. cbn [bind]. rewrite HT.
    destruct (handleBinaryCommon T _ op _); cbn [bind]; try discriminate.
    intros [= <-] _. apply wideKinds_resultKinds. exact Hw.
  - destruct (OP_IS_BIN_COMP op).
    + rewrite Hk. cbn [bind]. rewrite HT.
      destruct (handleBinaryCommon T _ op _); cbn [bind]; try discriminate.
      intros [= <-] _. simpl. tauto.
    + destruct (OP_IS_BIN_SHIFT op).
      * destruct (cast Tint64 r) as [n| |]; cbn [bind]; try discriminate.
        destruct (if n <? 0 then _ else _) as [[op' n']| |]; cbn [bind]; try discriminate.
        cbn [mValueKind set_mValueKind]. rewrite HTl.
        destruct (handleShift Tl _ op' n'); cbn [bind]; try discriminate.
        intros [= <-] _. apply wideKinds_resultKinds. exact Pl.
      * destruct (OP_IS_BIN_LOGICAL op); [|intros [= <-] H; now contradiction H].
        destruct (handleLogical _ op _); cbn [bind]; try discriminate.
        intros [= <-] _. simpl. tauto.
Qed.

Lemma evaluated_fields e :
  evaluated e ->
  mType e <> kConstExprUnknown /\
  In (mValueKind e) resultKinds /\
  storedAtKind e.
Proof.
  induction 1 as [mem value type e He Hu
                 | mem op x e Hx IHx He Hu
                 | mem l op r e Hl IHl Hr IHr He Hu
                 | mem c t f e Hc IHc Ht IHt Hf IHf He Hu].
  - split; [exact Hu|]. split.
    + apply wideKinds_resultKinds.
      apply (literal_fields _ _ _ _ He Hu).
    + exact (literal_storedAtKind _ _ _ _ He Hu).
  - split; [exact Hu|]. split.
    + destruct IHx as [_ [Kx _]].
      unfold ConstantExpression_unary in He.
      destruct (isUnknown (mType x)); [injection He as <-; now contradiction Hu|].
      cbn [mValueKind set_mValueKind] in He.
      destruct (SWITCH_KIND (mValueKind x)); [|injection He as <-; now contradiction Hu].
      destruct (handleUnary _ op _); cbn [bind] in He; try discriminate.
      injection He as <-. exact Kx.
    + exact (unary_storedAtKind _ _ _ _ He Hu).
  - split; [exact Hu|]. split.
    + destruct IHl as [_ [Kl _]]. destruct IHr as [_ [Kr _]].
      exact (binary_kind_resultKinds _ _ _ _ _ Kl Kr He Hu).
    + exact (binary_storedAtKind _ _ _ _ _ He Hu).
  - split; [exact Hu|]. split.
    + destruct IHt as [_ [Kt _]]. destruct IHf as [_ [Kf _]].
      unfold ConstantExpression_ternary in He.
      destruct (usualArithmeticConversion _ _) as [k| |] eqn:Hk;
        cbn [bind] in He; try discriminate.
      pose proof (usualArithmeticConversion_resultKinds _ _ _ Kt Kf Hk) as Kk.
      cbn [mValueKind set_mValueKind] in He.
      destruct (SWITCH_KIND k); injection He as <-; exact Kk.
    + exact (ternary_storedAtKind _ _ _ _ _ He Hu).
Qed.

(** X19: in a tree that evaluated, every node has kind boolean, [int32_t],
    [uint32_t], [int64_t] or [uint64_t] (the 8- and 16-bit kinds never
    arise) and is stored at its kind: reading the stored 64 bits at the kind
    and writing them back changes nothing. *)
Theorem evaluated_node_invariant e :
  evaluated e ->
  mType e <> kConstExprUnknown /\
  In (mValueKind e) resultKinds /\
  storedAtKind e.
Proof. exact (evaluated_fields e). Qed.

Lemma evaluated_node_invariant_witness :
  mType (mkConstantExpression "(-1)" kConstExprUnary KIND_INT32 18446744073709551615)
    <> kConstExprUnknown /\
  In KIND_INT32 resultKinds /\
  storedAtKind (mkConstantExpression "(-1)" kConstExprUnary KIND_INT32
                  18446744073709551615).
Proof.
  apply (evaluated_node_invariant
           (mkConstantExpression "(-1)" kConstExprUnary KIND_INT32 18446744073709551615)).
  apply (evaluated_unary (mkIndeterminate KIND_DOUBLE 7) "-"
           (mkConstantExpression "1" kConstExprLiteral KIND_INT32 1)).
  - apply (evaluated_literal (mkIndeterminate KIND_DOUBLE 7) "1" kConstExprLiteral).
    + reflexivity.
    + simpl. discriminate.
  - reflexivity.
  - simpl. discriminate.
Defined.

(** X20: no renderer aborts on a node of a tree that evaluated: the
    [CHECK]s of [cast] are never reached, for any requested kind, in
    [value0], [value], [cppValue] and [javaValue]. *)
Theorem evaluated_node_renders e castKind :
  evaluated e ->
  (exists s, value0 e castKind = Done s) /\
  (exists s, value e = Done s) /\
  (exists s, cppValue e castKind = Done s) /\
  (exists s, javaValue e castKind = Done s).
Proof.
  intros He. destruct (evaluated_fields e He) as [Hu [_ [T [HT _]]]].
  apply isUnknown_false in Hu.
  assert (Hc : forall T', exists v, cast T' e = Done v).
  { intros T'. unfold cast. rewrite Hu, HT. eexists; reflexivity. }
  assert (H0 : forall k, exists s, value0 e k = Done s).
  { intros k. unfold value0. rewrite Hu.
    destruct (SWITCH_KIND k) as [T'|]; [|eexists; reflexivity].
    destruct (Hc T') as [v ->]. eexists; reflexivity. }
  split; [apply H0|]. split; [apply H0|]. split.
  - unfold cppValue. destruct (H0 castKind) as [s ->]. cbn [bind].
    destruct (_ && _)%bool; eexists; reflexivity.
  - unfold javaValue. destruct castKind; try apply H0.
    rewrite Hu. destruct (Hc Tbool) as [v ->]. eexists; reflexivity.
Qed.

Lemma evaluated_node_renders_witness :
  (exists s, value0 (mkConstantExpression "1" kConstExprLiteral KIND_INT32 1)
               KIND_BOOL = Done s) /\
  (exists s, value (mkConstantExpression "1" kConstExprLiteral KIND_INT32 1) = Done s) /\
  (exists s, cppValue (mkConstantExpression "1" kConstExprLiteral KIND_INT32 1)
               KIND_BOOL = Done s) /\
  (exists s, javaValue (mkConstantExpression "1" kConstExprLiteral KIND_INT32 1)
               KIND_BOOL = Done s).
Proof.
  apply (evaluated_node_renders
           (mkConstantExpression "1" kConstExprLiteral KIND_INT32 1) KIND_BOOL).
  apply (evaluated_literal (mkIndeterminate KIND_DOUBLE 7) "1" kConstExprLiteral).
  - reflexivity.
  - simpl. discriminate.
Defined.

(** ** Native rendering, read back *)

Lemma append_associative (a b c : string) : ((a ++ b) ++ c = a ++ (b ++ c))%string.
Proof. induction a as [|x a IH]; simpl; [reflexivity | now rewrite IH]. Qed.

Lemma isHexPrefix_to_string w :
  0 <= w -> isHexPrefix (list_ascii_of_string (to_string w)) = false.
Proof.
  intros Hw. destruct w as [|p|p]; [reflexivity | | lia].
  unfold to_string. cbn [Z.to_int NilEmpty.string_of_int]. apply isHexPrefix_uint.
Qed.

(** The text [cppValue] writes for a value that is not negative, by kind. *)
Lemma cppValue_nonnegative e T :
  mType e <> kConstExprUnknown ->
  SWITCH_KIND (mValueKind e) = Some T ->
  castTo Tuint64 (castTo T (mValue e)) = mValue e ->
  0 <= castTo T (mValue e) ->
  mValue e = castTo T (mValue e) /\
  cppValue e (mValueKind e) =
  Done (to_string (mValue e) ++
        (if Kind_eqb (mValueKind e) KIND_UINT32 then "u"
         else if Kind_eqb (mValueKind e) KIND_UINT64 then "ull"
         else if Kind_eqb (mValueKind e) KIND_INT64 then "ll"
         else ""))%string.
Proof.
  intros Hu HT Hst Hpos.
  assert (Hw : mValue e = castTo T (mValue e)).
  { rewrite <- Hst at 1. apply castTo_uint64_small. split; [exact Hpos|].
    apply castTo_le_uint64. }
  split; [exact Hw|].
  unfold cppValue, value0, cast. rewrite (isUnknown_false _ Hu), HT.
  cbn [bind]. rewrite castTo_idem, <- Hw.
  assert (Hmin : (Kind_eqb (mValueKind e) KIND_INT64
                  && (castTo Tint64 (mValue e) =? INT64_MIN))%bool = false).
  { destruct (mValueKind e); try reflexivity.
    injection HT as <-. cbn [Kind_eqb kindValue Z.eqb andb].
    change (Kind_eqb KIND_INT64 KIND_INT64) with true. cbn [andb].
    apply Z.eqb_neq. rewrite <- Hw. unfold INT64_MIN. lia. }
  rewrite Hmin.
  destruct (mValueKind e); try discriminate HT;
    cbn [Kind_eqb kindValue Z.eqb Pos.eqb orb];
    rewrite ?append_associative, ?append_empty_r; reflexivity.
Qed.

(** X21: for a node returned by a constructor that is not Unknown, has one
    of the four kinds of at least 32 bits and a value that is not negative at
    that kind, the text that [cppValue] writes at the node's own kind builds
    a literal with the same kind and the same stored value. *)
Theorem cppValue_reads_back mem e :
  constructed e -> mType e <> kConstExprUnknown ->
  In (mValueKind e) wideKinds ->
  (forall T, SWITCH_KIND (mValueKind e) = Some T -> 0 <= castTo T (mValue e)) ->
  exists s,
    cppValue e (mValueKind e) = Done s /\
    omap fields (ConstantExpression_literal mem s kConstExprLiteral) =
      Done (kConstExprLiteral, mValueKind e, mValue e).
Proof.
  intros Hc Hu Hk Hpos.
  destruct (constructed_storedAtKind e Hc Hu) as [T [HT Hst]].
  specialize (Hpos T HT).
  destruct (cppValue_nonnegative e T Hu HT Hst Hpos) as [Hw Hcpp].
  rewrite Hcpp. eexists. split; [reflexivity|].
  assert (Hp : ParseUint (to_string (mValue e)) = Some (mValue e)).
  { apply ParseUint_to_string. rewrite Hw. split; [exact Hpos | apply castTo_le_uint64]. }
  assert (Hhex : isHexPrefix (list_ascii_of_string (to_string (mValue e))) = false)
    by (apply isHexPrefix_to_string; rewrite Hw; exact Hpos).
  assert (Hlit : forall sfx,
             Forall suffixChar (list_ascii_of_string sfx) ->
             forall k,
             tableKind (existsb isL (list_ascii_of_string sfx))
                       (existsb isU (list_ascii_of_string sfx)) false (mValue e) = Some k ->
             omap fields (ConstantExpression_literal mem (to_string (mValue e) ++ sfx)
                            kConstExprLiteral) =
             Done (kConstExprLiteral, k, mValue e)).
  { intros sfx Hs k Hk'.
    destruct (literal_parsed mem _ sfx _ kConstExprLiteral ltac:(discriminate) Hp Hs)
      as [k' [Hk'' ->]].
    rewrite Hhex, Hk' in Hk''. injection Hk'' as <-. reflexivity. }
  unfold wideKinds in Hk. simpl in Hk.
  destruct Hk as [Hk | [Hk | [Hk | [Hk | []]]]]; rewrite <- Hk in *;
    injection HT as <-; cbn [Kind_eqb kindValue Z.eqb Pos.eqb];
    (apply Hlit;
     [repeat constructor
     | cbn [list_ascii_of_string existsb isL isU]; unfold tableKind]).
  - (* int32_t *)
    assert (E : (mValue e <=? INT32_MAX) = true).
    { apply Z.leb_le. rewrite Hw. unfold INT32_MAX. clear. unfold_cast. modarith. }
    cbn. rewrite E. reflexivity.
  - (* uint32_t *)
    assert (E : (mValue e <=? UINT32_MAX) = true).
    { apply Z.leb_le. rewrite Hw. unfold UINT32_MAX. clear. unfold_cast. modarith. }
    cbn. rewrite E. reflexivity.
  - reflexivity.
  - reflexivity.
Qed.

Lemma cppValue_reads_back_witness :
  exists s,
    cppValue (mkConstantExpression "(1u + 2)" kConstExprBinary KIND_UINT32 3) KIND_UINT32
      = Done s /\
    omap fields (ConstantExpression_literal (mkIndeterminate KIND_DOUBLE 7) s
                   kConstExprLiteral) =
      Done (kConstExprLiteral, KIND_UINT32, 3).
Proof.
  apply (cppValue_reads_back (mkIndeterminate KIND_DOUBLE 7)
           (mkConstantExpression "(1u + 2)" kConstExprBinary KIND_UINT32 3)).
  - apply (constructed_binary (mkIndeterminate KIND_DOUBLE 7)
             (mkConstantExpression "1u" kConstExprLiteral KIND_UINT32 1) "+"
             (mkConstantExpression "2" kConstExprLiteral KIND_INT32 2)).
    reflexivity.
  - simpl. discriminate.
  - simpl. tauto.
  - intros T HT. simpl in HT. injection HT as <-. vm_compute. discriminate.
Defined.

(** X22: a node returned by a constructor that is not Unknown and stores
    2^63 renders with [cppValue] at [int64_t] as a cast of an unsigned
    literal, never as a bare negative literal with the [ll] suffix. *)
Theorem cppValue_least_int64 e :
  constructed e -> mType e <> kConstExprUnknown ->
  mValue e = 9223372036854775808 ->
  cppValue e KIND_INT64 = Done "(int64_t)(-9223372036854775808ull)".
Proof.
  intros Hc Hu Hv.
  destruct (constructed_storedAtKind e Hc Hu) as [T [HT Hst]].
  unfold cppValue, value0, cast. rewrite (isUnknown_false _ Hu).
  cbn [SWITCH_KIND]. rewrite HT. rewrite Hv in *.
  destruct T; try (vm_compute in Hst; discriminate Hst); reflexivity.
Qed.

Lemma cppValue_least_int64_witness :
  cppValue (mkConstantExpression "(1l << 63)" kConstExprBinary KIND_INT64
              9223372036854775808) KIND_INT64
  = Done "(int64_t)(-9223372036854775808ull)".
Proof.
  apply (cppValue_least_int64
           (mkConstantExpression "(1l << 63)" kConstExprBinary KIND_INT64
              9223372036854775808)).
  - apply (constructed_binary (mkIndeterminate KIND_DOUBLE 7)
             (mkConstantExpression "1l" kConstExprLiteral KIND_INT64 1) "<<"
             (mkConstantExpression "63" kConstExprLiteral KIND_INT32 63)).
    reflexivity.
  - simpl. discriminate.
  - reflexivity.
Defined.

(** ** Managed rendering and truth values *)

(** X23: [javaValue] at an unsigned kind writes the stored bits as the
    signed number of the same width: a [uint32_t] value above [INT32_MAX]
    comes out lowered by 2^32, a [uint64_t] value above [INT64_MAX] lowered
    by 2^64, and smaller values unchanged. *)
Theorem javaValue_unsigned_as_signed e :
  mType e <> kConstExprUnknown ->
  (mValueKind e = KIND_UINT32 -> 0 <= mValue e <= UINT32_MAX ->
   javaValue e KIND_UINT32 =
   Done (to_string (if mValue e <=? INT32_MAX then mValue e
                    else mValue e - 4294967296))) /\
  (mValueKind e = KIND_UINT64 -> 0 <= mValue e <= UINT64_MAX ->
   javaValue e KIND_UINT64 =
   Done (to_string (if mValue e <=? INT64_MAX then mValue e
                    else mValue e - 18446744073709551616))).
Proof.
  intros Hu. apply isUnknown_false in Hu.
  split; intros Hk Hr; unfold javaValue, value0, cast; rewrite Hu, Hk;
    cbn [SWITCH_KIND bind]; do 2 f_equal;
    unfold UINT32_MAX, UINT64_MAX, INT32_MAX, INT64_MAX in *.
  - destruct (Z.leb_spec (mValue e) 2147483647); unfold_cast; modarith.
  - destruct (Z.leb_spec (mValue e) 9223372036854775807); unfold_cast; modarith.
Qed.

Lemma javaValue_unsigned_as_signed_witness :
  javaValue (mkConstantExpression "0xFFFFFFFF" kConstExprLiteral KIND_UINT32 4294967295)
    KIND_UINT32
  = Done (to_string (if 4294967295 <=? INT32_MAX then 4294967295
                     else 4294967295 - 4294967296)).
Proof.
  refine (proj1 (javaValue_unsigned_as_signed
                   (mkConstantExpression "0xFFFFFFFF" kConstExprLiteral KIND_UINT32
                      4294967295) _) _ _).
  - simpl. discriminate.
  - reflexivity.
  - simpl. unfold UINT32_MAX. lia.
Defined.

(** [0xFFFFFFFF] is [-1] in the managed format and [4294967295u] in the
    native one. *)
Example renderings_of_0xFFFFFFFF :
  javaValue (mkConstantExpression "0xFFFFFFFF" kConstExprLiteral KIND_UINT32 4294967295)
    KIND_UINT32 = Done "-1" /\
  cppValue (mkConstantExpression "0xFFFFFFFF" kConstExprLiteral KIND_UINT32 4294967295)
    KIND_UINT32 = Done "4294967295u".
Proof. split; reflexivity. Qed.

Lemma castTo_zero_iff T m :
  castTo Tuint64 (castTo T m) = m -> (castTo T m = 0 <-> m = 0).
Proof.
  intros H. split; intros E.
  - rewrite E in H. rewrite <- H. reflexivity.
  - rewrite E. destruct T; reflexivity.
Qed.

(** X24: for a node returned by a constructor that is not Unknown, the two
    ways the code reads a truth value agree: [cast<bool>], which goes
    through the kind, is true exactly when the raw 64-bit [mValue] is
    non-zero, which is what [&&], [||] and [?:] test; so [javaValue] at
    boolean writes [false] for a stored zero and [true] otherwise. *)
Theorem truth_value_agrees_with_storage e :
  constructed e -> mType e <> kConstExprUnknown ->
  cast Tbool e = Done (b2z (negb (mValue e =? 0))) /\
  javaValue e KIND_BOOL = Done (if mValue e =? 0 then "false" else "true").
Proof.
  intros Hc Hu.
  destruct (constructed_storedAtKind e Hc Hu) as [T [HT Hst]].
  pose proof (castTo_zero_iff T (mValue e) Hst) as Hz.
  assert (E : cast Tbool e = Done (b2z (negb (mValue e =? 0)))).
  { unfold cast. rewrite (isUnknown_false _ Hu), HT. f_equal.
    cbn [castTo]. destruct (Z.eqb_spec (mValue e) 0) as [E0 | E0].
    - apply Hz in E0. rewrite E0. reflexivity.
    - destruct (Z.eqb_spec (castTo T (mValue e)) 0) as [E1 | E1]; [|reflexivity].
      apply Hz in E1. contradiction. }
  split; [exact E|].
  unfold javaValue. rewrite (isUnknown_false _ Hu), E. cbn [bind].
  destruct (mValue e =? 0); reflexivity.
Qed.

Lemma truth_value_agrees_with_storage_witness :
  cast Tbool (mkConstantExpression "(-1)" kConstExprUnary KIND_INT32 18446744073709551615)
    = Done (b2z (negb (18446744073709551615 =? 0))) /\
  javaValue (mkConstantExpression "(-1)" kConstExprUnary KIND_INT32 18446744073709551615)
    KIND_BOOL = Done (if 18446744073709551615 =? 0 then "false" else "true").
Proof.
  apply (truth_value_agrees_with_storage
           (mkConstantExpression "(-1)" kConstExprUnary KIND_INT32 18446744073709551615)).
  - apply (constructed_unary (mkIndeterminate KIND_DOUBLE 7) "-"
             (mkConstantExpression "1" kConstExprLiteral KIND_INT32 1)).
    reflexivity.
  - simpl. discriminate.
Defined.

(** ** Arithmetic at one kind *)

(** An arithmetic or bitwise operator on two operands of the same kind of
    at least 32 bits works at that kind. *)
Lemma binary_same_kind_case mem lval op rval k :
  mType lval <> kConstExprUnknown -> mType rval <> kConstExprUnknown ->
  In k wideKinds -> mValueKind lval = k -> mValueKind rval = k ->
  (OP_IS_BIN_ARITHMETIC op || OP_IS_BIN_BITFLIP op)%bool = true ->
  exists T, SWITCH_KIND k = Some T /\ T <> Tbool /\
    ConstantExpression_binary mem lval op rval =
    (v <- handleBinaryCommon T (castTo T (mValue lval)) op (castTo T (mValue rval)) ;;
     Done (mkConstantExpression
             ("(" ++ expr lval ++ " " ++ op ++ " " ++ expr rval ++ ")")%string
             kConstExprBinary k (castTo Tuint64 v))).
Proof.
  intros Hl Hr Hk Kl Kr Hop.
  apply isUnknown_false in Hl. apply isUnknown_false in Hr.
  rewrite binary_common_case by (auto; rewrite Hop; reflexivity).
  cbn zeta. rewrite Kl, Kr, Hop.
  unfold wideKinds in Hk. simpl in Hk.
  destruct Hk as [<- | [<- | [<- | [<- | []]]]];
    eexists; (split; [reflexivity|]); (split; [discriminate|]); reflexivity.
Qed.

Lemma castTo_add_assoc T x y z : T <> Tbool ->
  castTo T (castTo T (castTo Tuint64 (castTo T (x + y))) + z) =
  castTo T (x + castTo T (castTo Tuint64 (castTo T (y + z)))).
Proof. intros HT. destruct T; try congruence; unfold_cast; modarith. Qed.

Lemma castTo_sub_as_add T x y : T <> Tbool ->
  castTo T (x + castTo T (castTo Tuint64 (castTo T (- y)))) = castTo T (x - y).
Proof. intros HT. destruct T; try congruence; unfold_cast; modarith. Qed.

(** X25: addition of three operands of one kind of at least 32 bits
    associates: [(a + b) + c] and [a + (b + c)] are built without fault and
    have the same type tag, kind and stored value, also when a partial sum
    wraps around (for the signed kinds wrapping is how [retT] computes an
    overflowing sum). *)
Theorem addition_associates mem a b c k :
  mType a <> kConstExprUnknown -> mType b <> kConstExprUnknown ->
  mType c <> kConstExprUnknown ->
  In k wideKinds -> mValueKind a = k -> mValueKind b = k -> mValueKind c = k ->
  exists ab bc e e',
    ConstantExpression_binary mem a "+" b = Done ab /\
    ConstantExpression_binary mem ab "+" c = Done e /\
    ConstantExpression_binary mem b "+" c = Done bc /\
    ConstantExpression_binary mem a "+" bc = Done e' /\
    fields e = fields e' /\ mValueKind e = k.
Proof.
  intros Ha Hb Hc Hk Ka Kb Kc.
  destruct (binary_same_kind_case mem a "+" b k Ha Hb Hk Ka Kb eq_refl)
    as [T [HT [Tb Eab]]].
  destruct (binary_same_kind_case mem b "+" c k Hb Hc Hk Kb Kc eq_refl)
    as [T' [HT' [_ Ebc]]].
  rewrite HT in HT'. injection HT' as <-.
  change (handleBinaryCommon T ?x "+" ?y) with (Done (retT T (x + y))) in Eab, Ebc.
  cbn [bind] in Eab, Ebc.
  set (ab := mkConstantExpression
               ("(" ++ expr a ++ " " ++ "+" ++ " " ++ expr b ++ ")")%string
               kConstExprBinary k
               (castTo Tuint64 (retT T (castTo T (mValue a) + castTo T (mValue b)))))
    in *.
  set (bc := mkConstantExpression
               ("(" ++ expr b ++ " " ++ "+" ++ " " ++ expr c ++ ")")%string
               kConstExprBinary k
               (castTo Tuint64 (retT T (castTo T (mValue b) + castTo T (mValue c)))))
    in *.
  assert (Hab : mType ab <> kConstExprUnknown) by (subst ab; cbn [mType]; discriminate).
  assert (Hbc : mType bc <> kConstExprUnknown) by (subst bc; cbn [mType]; discriminate).
  destruct (binary_same_kind_case mem ab "+" c k Hab Hc Hk eq_refl Kc eq_refl)
    as [T1 [HT1 [_ E1]]].
  rewrite HT in HT1. injection HT1 as <-.
  destruct (binary_same_kind_case mem a "+" bc k Ha Hbc Hk Ka eq_refl eq_refl)
    as [T2 [HT2 [_ E2]]].
  rewrite HT in HT2. injection HT2 as <-.
  change (handleBinaryCommon T ?x "+" ?y) with (Done (retT T (x + y))) in E1, E2.
  cbn [bind] in E1, E2.
  exists ab, bc. eexists; eexists.
  split; [exact Eab|]. split; [exact E1|]. split; [exact Ebc|]. split; [exact E2|].
  split; [|reflexivity].
  unfold fields. subst ab bc. cbn [mType mValueKind mValue].
  rewrite !retT_integer by exact Tb.
  do 2 f_equal. apply castTo_add_assoc. exact Tb.
Qed.

Lemma addition_associates_witness :
  exists ab bc e e',
    ConstantExpression_binary (mkIndeterminate KIND_DOUBLE 7)
      (mkConstantExpression "4294967295u" kConstExprLiteral KIND_UINT32 4294967295) "+"
      (mkConstantExpression "1u" kConstExprLiteral KIND_UINT32 1) = Done ab /\
    ConstantExpression_binary (mkIndeterminate KIND_DOUBLE 7) ab "+"
      (mkConstantExpression "2u" kConstExprLiteral KIND_UINT32 2) = Done e /\
    ConstantExpression_binary (mkIndeterminate KIND_DOUBLE 7)
      (mkConstantExpression "1u" kConstExprLiteral KIND_UINT32 1) "+"
      (mkConstantExpression "2u" kConstExprLiteral KIND_UINT32 2) = Done bc /\
    ConstantExpression_binary (mkIndeterminate KIND_DOUBLE 7)
      (mkConstantExpression "4294967295u" kConstExprLiteral KIND_UINT32 4294967295) "+"
      bc = Done e' /\
    fields e = fields e' /\ mValueKind e = KIND_UINT32.
Proof.
  apply (addition_associates (mkIndeterminate KIND_DOUBLE 7)
           (mkConstantExpression "4294967295u" kConstExprLiteral KIND_UINT32 4294967295)
           (mkConstantExpression "1u" kConstExprLiteral KIND_UINT32 1)
           (mkConstantExpression "2u" kConstExprLiteral KIND_UINT32 2) KIND_UINT32);
    try (simpl; discriminate); try reflexivity.
  simpl. tauto.
Defined.

(** X26: for two operands of one kind of at least 32 bits, subtracting is
    adding the unary negation: [a - b] and [a + (-b)] have the same type
    tag, kind and stored value.  (Unary minus keeps the operand's kind, so
    the sum is formed at the same kind as the difference.) *)
Theorem subtraction_is_adding_negation mem a b k :
  mType a <> kConstExprUnknown -> mType b <> kConstExprUnknown ->
  In k wideKinds -> mValueKind a = k -> mValueKind b = k ->
  exists nb e e',
    ConstantExpression_unary mem "-" b = Done nb /\
    ConstantExpression_binary mem a "+" nb = Done e /\
    ConstantExpression_binary mem a "-" b = Done e' /\
    fields e = fields e' /\ mValueKind e = k.
Proof.
  intros Ha Hb Hk Ka Kb.
  destruct (binary_same_kind_case mem a "-" b k Ha Hb Hk Ka Kb eq_refl)
    as [T [HT [Tb Esub]]].
  change (handleBinaryCommon T ?x "-" ?y) with (Done (retT T (x - y))) in Esub.
  cbn [bind] in Esub.
  assert (HTb : SWITCH_KIND (mValueKind b) = Some T) by (rewrite Kb; exact HT).
  pose proof (unary_scalar_case mem "-" b T Hb HTb) as Eneg.
  change (handleUnary T "-" ?v) with (Done (retT T (- v))) in Eneg.
  cbn [bind] in Eneg. rewrite Kb in Eneg.
  set (nb := mkConstantExpression ("(" ++ "-" ++ expr b ++ ")")%string kConstExprUnary k
               (castTo Tuint64 (retT T (- castTo T (mValue b))))) in *.
  assert (Hnb : mType nb <> kConstExprUnknown) by (subst nb; cbn [mType]; discriminate).
  destruct (binary_same_kind_case mem a "+" nb k Ha Hnb Hk Ka eq_refl eq_refl)
    as [T1 [HT1 [_ Eadd]]].
  rewrite HT in HT1. injection HT1 as <-.
  change (handleBinaryCommon T ?x "+" ?y) with (Done (retT T (x + y))) in Eadd.
  cbn [bind] in Eadd.
  exists nb. eexists; eexists.
  split; [exact Eneg|]. split; [exact Eadd|]. split; [exact Esub|].
  split; [|reflexivity].
  unfold fields. subst nb. cbn [mType mValueKind mValue].
  rewrite !retT_integer by exact Tb.
  do 2 f_equal. apply castTo_sub_as_add. exact Tb.
Qed.

Lemma subtraction_is_adding_negation_witness :
  exists nb e e',
    ConstantExpression_unary (mkIndeterminate KIND_DOUBLE 7) "-"
      (mkConstantExpression "5u" kConstExprLiteral KIND_UINT32 5) = Done nb /\
    ConstantExpression_binary (mkIndeterminate KIND_DOUBLE 7)
      (mkConstantExpression "3u" kConstExprLiteral KIND_UINT32 3) "+" nb = Done e /\
    ConstantExpression_binary (mkIndeterminate KIND_DOUBLE 7)
      (mkConstantExpression "3u" kConstExprLiteral KIND_UINT32 3) "-"
      (mkConstantExpression "5u" kConstExprLiteral KIND_UINT32 5) = Done e' /\
    fields e = fields e' /\ mValueKind e = KIND_UINT32.
Proof.
  apply (subtraction_is_adding_negation (mkIndeterminate KIND_DOUBLE 7)
           (mkConstantExpression "3u" kConstExprLiteral KIND_UINT32 3)
           (mkConstantExpression "5u" kConstExprLiteral KIND_UINT32 5) KIND_UINT32);
    try (simpl; discriminate); try reflexivity.
  simpl. tauto.
Defined.

(** [3u - 5u] wraps to 2^32 - 2 at [uint32_t]. *)
Example unsigned_difference_wraps :
  omap fields
    (ConstantExpression_binary (mkIndeterminate KIND_DOUBLE 7)
       (mkConstantExpression "3u" kConstExprLiteral KIND_UINT32 3) "-"
       (mkConstantExpression "5u" kConstExprLiteral KIND_UINT32 5))
  = Done (kConstExprBinary, KIND_UINT32, 4294967294).
Proof. reflexivity. Qed.
